(** * Nginx log watcher: line parser, error-rate window, failover detector,
      cooldown gate and Slack notifier

    Shallow embedding of the watcher script.  Python strings are lists of
    characters; a character is an [ascii] read as the code point
    U+0000..U+00FF (code points above U+00FF are outside this model).
    Python floats are the kernel's binary64 floats. *)

From Stdlib Require Import String Ascii Bool Arith ZArith Lia List.
From Stdlib Require Import Floats.
Import ListNotations.

Set Implicit Arguments.
Local Open Scope list_scope.

(** ** Strings *)

Definition str := list ascii.

(** A literal of the source text. *)
Definition lit (s : string) : str := list_ascii_of_string s.

(** The double quote character, code point 34. *)
Definition dq : ascii := ascii_of_nat 34.

Fixpoint str_eqb (a b : str) : bool :=
  match a, b with
  | [], [] => true
  | x :: a', y :: b' => Ascii.eqb x y && str_eqb a' b'
  | _, _ => false
  end.

(** ** The parts of the Python runtime the watcher calls *)

Module Py.

(** [str.isspace] on one character, restricted to U+0000..U+00FF:
    TAB..CR, FS..US, space, NEL and NBSP. *)
Definition isspace (c : ascii) : bool :=
  let n := nat_of_ascii c in
  ((9 <=? n) && (n <=? 13)) || ((28 <=? n) && (n <=? 32))
  || (n =? 133) || (n =? 160).

Fixpoint lstrip (s : str) : str :=
  match s with
  | c :: t => if isspace c then lstrip t else s
  | [] => []
  end.

Definition rstrip (s : str) : str := rev (lstrip (rev s)).

(** [s.strip()] *)
Definition strip (s : str) : str := rstrip (lstrip s).

(** [s.split(sep)] for a one-character separator: never the empty list. *)
Fixpoint split (sep : ascii) (s : str) : list str :=
  match s with
  | [] => [[]]
  | c :: t =>
      if Ascii.eqb c sep then [] :: split sep t
      else match split sep t with
           | tok :: toks => (c :: tok) :: toks
           | [] => [[c]]
           end
  end.

(** [l[-1]] on a list of strings that is not empty. *)
Definition last_item (l : list str) : str := last l [].

(** The white space [int] itself skips at both ends of its argument:
    the C locale's white space, and NEL and NBSP, which the conversion
    to ASCII turns into spaces. *)
Definition int_isspace (c : ascii) : bool :=
  let n := nat_of_ascii c in
  ((9 <=? n) && (n <=? 13)) || (n =? 32) || (n =? 133) || (n =? 160).

Fixpoint int_lskip (s : str) : str :=
  match s with
  | c :: t => if int_isspace c then int_lskip t else s
  | [] => []
  end.

Definition digit_value (c : ascii) : option Z :=
  let n := nat_of_ascii c in
  if (48 <=? n) && (n <=? 57) then Some (Z.of_nat (n - 48)) else None.

(** The digits of a decimal literal, single underscores allowed between
    digits only.  [prev_us] holds at the start and after an underscore.
    Returns the value and the number of digit characters. *)
Fixpoint digits (prev_us : bool) (acc : Z) (ndigits : nat) (s : str)
  : option (Z * nat) :=
  match s with
  | [] => if prev_us then None else Some (acc, ndigits)
  | c :: t =>
      if Ascii.eqb c "_"%char
      then if prev_us then None else digits true acc ndigits t
      else match digit_value c with
           | Some d => digits false (10 * acc + d) (S ndigits) t
           | None => None
           end
  end.

(** [int(s)] in base 10; [None] stands for [ValueError].
    [max_str_digits] is [sys.get_int_max_str_digits()]: 0 when the
    interpreter has no limit, 4300 by default where it has one; the
    interpreter looks at it only for more than 640 digits. *)
Definition int (max_str_digits : nat) (s : str) : option Z :=
  let s := rev (int_lskip (rev (int_lskip s))) in
  let '(neg, body) :=
    match s with
    | c :: t =>
        if Ascii.eqb c "-"%char then (true, t)
        else if Ascii.eqb c "+"%char then (false, t)
        else (false, s)
    | [] => (false, s)
    end in
  match digits true 0 0 body with
  | Some (v, n) =>
      if (640 <? n) && (0 <? max_str_digits) && (max_str_digits <? n) then None
      else Some (if neg then (- v)%Z else v)
  | None => None
  end.

(** [collections.deque(maxlen=maxlen).append(x)]: append on the right,
    then drop the leftmost item when the bound is exceeded. *)
Definition deque_append {A} (maxlen : nat) (d : list A) (x : A) : list A :=
  let d' := d ++ [x] in
  if maxlen <? length d' then tl d' else d'.

End Py.

(** ** The fragment of [re] that [LOG_PATTERN] uses *)

Module Re.

(** A pattern is a sequence of literals and named groups; a group holds
    a greedy star over a character class, as the source's four groups do. *)
Inductive item : Type :=
| Lit (l : str)
| Group (name : str) (cls : ascii -> bool).

(** [match.groupdict()], in the order of the groups. *)
Definition groupdict := list (str * str).

Fixpoint lit_prefix (l s : str) : option str :=
  match l, s with
  | [], _ => Some s
  | a :: l', b :: s' => if Ascii.eqb a b then lit_prefix l' s' else None
  | _ :: _, [] => None
  end.

(** The greedy star with backtracking: take one more character when the
    class allows it and the rest of the pattern then matches, and stop
    here otherwise. [taken] is what the group holds so far, reversed. *)
Fixpoint star (cls : ascii -> bool) (name : str)
         (k : str -> option groupdict) (taken s : str) : option groupdict :=
  let stop := option_map (cons (name, rev taken)) (k s) in
  match s with
  | c :: t =>
      if cls c
      then match star cls name k (c :: taken) t with
           | Some g => Some g
           | None => stop
           end
      else stop
  | [] => stop
  end.

(** The pattern matched at the start of [s]. *)
Fixpoint match_here (p : list item) (s : str) : option groupdict :=
  match p with
  | [] => Some []
  | Lit l :: p' =>
      match lit_prefix l s with
      | Some rest => match_here p' rest
      | None => None
      end
  | Group name cls :: p' => star cls name (match_here p') [] s
  end.

(** [pattern.search(s)]: the match at the leftmost position that has one. *)
Fixpoint search (p : list item) (s : str) : option groupdict :=
  match match_here p s with
  | Some g => Some g
  | None =>
      match s with
      | [] => None
      | _ :: t => search p t
      end
  end.

(** [data[key]]; the keys the watcher reads are groups of its pattern, so
    the default is never returned (lemma [LOG_PATTERN_groupdict]). *)
Fixpoint get (key : str) (data : groupdict) : str :=
  match data with
  | [] => []
  | (k, v) :: data' => if str_eqb k key then v else get key data'
  end.

End Re.

(** ** The line parser *)

Definition not_dq (c : ascii) : bool := negb (Ascii.eqb c dq).

Definition LOG_PATTERN : list Re.item :=
  [ Re.Lit (lit "pool=" ++ [dq]);
    Re.Group (lit "pool") not_dq;
    Re.Lit ([dq] ++ lit " release=" ++ [dq]);
    Re.Group (lit "release") not_dq;
    Re.Lit ([dq] ++ lit " upstream_status=" ++ [dq]);
    Re.Group (lit "upstream_status") not_dq;
    Re.Lit ([dq] ++ lit " upstream_addr=" ++ [dq]);
    Re.Group (lit "upstream_addr") not_dq;
    Re.Lit [dq] ].

Record LogRecord : Type := {
  pool : str;
  release : str;
  upstream_status : Z;
  upstream_addr : str
}.

(** [x if x != '-' else 'unknown'] *)
Definition unknown_if_dash (x : str) : str :=
  if negb (str_eqb x (lit "-")) then x else lit "unknown".

Section Parser.

Variable int_max_str_digits : nat.

(** The status code of [parse_log_line], from the text of the group. *)
Definition status_code (upstream_status : str) : Z :=
  if negb (str_eqb upstream_status []) && negb (str_eqb upstream_status (lit "-"))
  then
    let statuses := Py.split ","%char upstream_status in
    match Py.int int_max_str_digits (Py.strip (Py.last_item statuses)) with
    | Some n => n
    | None => 0%Z
    end
  else 0%Z.

Definition parse_log_line (line : str) : option LogRecord :=
  match Re.search LOG_PATTERN line with
  | None => None
  | Some data =>
      Some {| pool := unknown_if_dash (Re.get (lit "pool") data);
              release := unknown_if_dash (Re.get (lit "release") data);
              upstream_status := status_code (Re.get (lit "upstream_status") data);
              upstream_addr := Re.get (lit "upstream_addr") data |}
  end.

End Parser.

(** The text [pool="p" release="r" upstream_status="u" upstream_addr="a"]. *)
Definition fields_text (p r u a : str) : str :=
  lit "pool=" ++ [dq] ++ p ++ [dq] ++
  lit " release=" ++ [dq] ++ r ++ [dq] ++
  lit " upstream_status=" ++ [dq] ++ u ++ [dq] ++
  lit " upstream_addr=" ++ [dq] ++ a ++ [dq].

(** ** Numbers *)

(** [x < n] for a float [x] and an int [n]: Python compares the two exactly. *)
Definition float_lt_int (x : float) (n : Z) : bool :=
  match Prim2SF x with
  | S754_nan => false
  | S754_infinity neg => neg
  | S754_zero _ => (0 <? n)%Z
  | S754_finite neg m e =>
      let mz := if neg then Z.neg m else Z.pos m in
      if (0 <=? e)%Z then (mz * 2 ^ e <? n)%Z else (mz <? n * 2 ^ (- e))%Z
  end.

(** [x >= n] for a float [x] and an int [n]. *)
Definition float_ge_int (x : float) (n : Z) : bool :=
  match Prim2SF x with
  | S754_nan => false
  | S754_infinity neg => negb neg
  | S754_zero _ => (n <=? 0)%Z
  | S754_finite neg m e =>
      let mz := if neg then Z.neg m else Z.pos m in
      if (0 <=? e)%Z then (n <=? mz * 2 ^ e)%Z else (n * 2 ^ (- e) <=? mz)%Z
  end.

(** [float(n)] for an int [n], rounded to nearest even. *)
Definition float_of_int (n : Z) : float :=
  SF2Prim (binary_normalize prec emax n 0 false).

(** [a / b] on ints: the quotient of the two converted operands, which is
    Python's result when both are below 2^53, as counts and lengths are. *)
Definition int_truediv (a b : Z) : float :=
  (float_of_int a / float_of_int b)%float.

(** ** State, output and the environment *)

(** The module's global variables. *)
Record State : Type := {
  last_pool : option str;
  request_window : list Z;
  last_failover_alert : float;
  last_error_alert : float
}.

(** The values the module gives its globals when it is loaded; the two
    timestamps start as the int [0]. *)
Definition initial_state : State :=
  {| last_pool := None;
     request_window := [];
     last_failover_alert := 0%float;
     last_error_alert := 0%float |}.

(** The marker in front of a Slack message. *)
Inductive emoji : Type :=
| arrows | siren | check_mark | info_sign | megaphone.

(** The text of an alert, before it is formatted. *)
Inductive alert_message : Type :=
| FailoverDetected (previous current : str)
| HighErrorRate (error_rate threshold : float) (error_count window_len : Z)
    (window_size : nat).

(** What [requests.post] raises: each one derives from [Exception]. *)
Inductive exn : Type :=
| Timeout
| ConnectionError
| RequestException (what : str).

(** What the webhook answers to one POST. *)
Inductive post_outcome : Type :=
| Response (status_code : Z) (text : str)
| Raises (e : exn).

(** What the process prints and sends, in order.  The timestamp line of the
    payload is left out. *)
Inductive output : Type :=
| print_no_webhook (message : alert_message)
| post (url : str) (marker : emoji) (message : alert_message)
| print_alert_sent (alert_type : str)
| print_alert_failed (status_code : Z)
| print_response (text : str)
| print_alert_error (e : exn)
| print_initial_pool (pool : str)
| print_in_cooldown (elapsed : float)
| print_failover (previous current : str)
| print_error_rate (error_rate : float) (error_count window_len : Z).

(** What the outside world gives one call of [check_failover] or
    [check_error_rate]: the reading of [time.time()] and the answer to the
    POST, each used only if the call gets there. *)
Record world : Type := {
  time_time : float;
  requests_post : post_outcome
}.

(** ** A monad for the globals, the output and exceptions *)

Inductive result (A : Type) : Type :=
| Return (a : A)
| Raise (e : exn).
Arguments Return {A} a.
Arguments Raise {A} e.

Definition M (A : Type) : Type := State -> result A * State * list output.

Definition ret {A} (a : A) : M A := fun st => (Return a, st, []).

Definition bind {A B} (m : M A) (f : A -> M B) : M B :=
  fun st =>
    match m st with
    | (Return a, st1, out1) =>
        let '(r, st2, out2) := f a st1 in (r, st2, out1 ++ out2)
    | (Raise e, st1, out1) => (Raise e, st1, out1)
    end.

Notation "x <- m ;; k" := (bind m (fun x => k))
  (at level 61, m at next level, right associativity).
Notation "m ;; k" := (bind m (fun _ => k))
  (at level 61, right associativity).

Definition emit (o : output) : M unit := fun st => (Return tt, st, [o]).

Definition raise {A} (e : exn) : M A := fun st => (Raise e, st, []).

(** [try: body  except Exception as e: handler e] *)
Definition try_except {A} (body : M A) (handler : exn -> M A) : M A :=
  fun st =>
    match body st with
    | (Return a, st1, out1) => (Return a, st1, out1)
    | (Raise e, st1, out1) =>
        let '(r, st2, out2) := handler e st1 in (r, st2, out1 ++ out2)
    end.

Definition get_state : M State := fun st => (Return st, st, []).

Definition set_last_pool (p : str) : M unit :=
  fun st => (Return tt,
             {| last_pool := Some p;
                request_window := request_window st;
                last_failover_alert := last_failover_alert st;
                last_error_alert := last_error_alert st |}, []).

Definition set_last_failover_alert (t : float) : M unit :=
  fun st => (Return tt,
             {| last_pool := last_pool st;
                request_window := request_window st;
                last_failover_alert := t;
                last_error_alert := last_error_alert st |}, []).

Definition set_last_error_alert (t : float) : M unit :=
  fun st => (Return tt,
             {| last_pool := last_pool st;
                request_window := request_window st;
                last_failover_alert := last_failover_alert st;
                last_error_alert := t |}, []).

Definition set_request_window (w : list Z) : M unit :=
  fun st => (Return tt,
             {| last_pool := last_pool st;
                request_window := w;
                last_failover_alert := last_failover_alert st;
                last_error_alert := last_error_alert st |}, []).

(** ** The watcher *)

Section Watcher.

(** The configuration the module reads from its environment when it is
    loaded.  [WINDOW_SIZE] is a natural number: [deque] refuses a negative
    [maxlen] and the module then fails to load. *)
Variable SLACK_WEBHOOK_URL : str.
Variable ERROR_RATE_THRESHOLD : float.
Variable WINDOW_SIZE : nat.
Variable ALERT_COOLDOWN_SEC : Z.
Variable int_max_str_digits : nat.

(** The dictionary of markers of [send_slack_alert], with its default. *)
Definition emoji_of (alert_type : str) : emoji :=
  if str_eqb alert_type (lit "failover") then arrows
  else if str_eqb alert_type (lit "error") then siren
  else if str_eqb alert_type (lit "recovery") then check_mark
  else if str_eqb alert_type (lit "info") then info_sign
  else megaphone.

(** [requests.post(url, json=payload, timeout=5)] *)
Definition do_post (w : world) (url : str) (marker : emoji)
           (message : alert_message) : M (Z * str) :=
  emit (post url marker message) ;;
  match requests_post w with
  | Response status_code text => ret (status_code, text)
  | Raises e => raise e
  end.

Definition send_slack_alert (w : world) (message : alert_message)
           (alert_type : str) : M bool :=
  if str_eqb SLACK_WEBHOOK_URL [] then
    emit (print_no_webhook message) ;;
    ret false
  else
    let marker := emoji_of alert_type in
    try_except
      (response <- do_post w SLACK_WEBHOOK_URL marker message ;;
       if (fst response =? 200)%Z then
         emit (print_alert_sent alert_type) ;;
         ret true
       else
         emit (print_alert_failed (fst response)) ;;
         emit (print_response (firstn 100 (snd response))) ;;
         ret false)
      (fun e =>
         emit (print_alert_error e) ;;
         ret false).

Definition check_failover (w : world) (pool : str) : M unit :=
  st <- get_state ;;
  match last_pool st with
  | None =>
      set_last_pool pool ;;
      emit (print_initial_pool pool)
  | Some previous =>
      if negb (str_eqb pool previous) then
        let current_time := time_time w in
        if float_lt_int (current_time - last_failover_alert st) ALERT_COOLDOWN_SEC
        then
          emit (print_in_cooldown (current_time - last_failover_alert st)) ;;
          set_last_pool pool
        else
          let message := FailoverDetected previous pool in
          send_slack_alert w message (lit "failover") ;;
          set_last_failover_alert current_time ;;
          emit (print_failover previous pool) ;;
          set_last_pool pool
      else ret tt
  end.

(** [sum(1 for status in request_window if status >= 500)] *)
Definition error_count (window : list Z) : Z :=
  fold_left Z.add
    (map (fun _ => 1%Z) (filter (fun status => (500 <=? status)%Z) window)) 0%Z.

(** [(error_count / len(request_window)) * 100] *)
Definition error_rate (window : list Z) : float :=
  (int_truediv (error_count window) (Z.of_nat (length window)) * 100)%float.

Definition check_error_rate (w : world) : M unit :=
  st <- get_state ;;
  let window := request_window st in
  if length window <? 10 then ret tt
  else
    if (ERROR_RATE_THRESHOLD <? error_rate window)%float then
      let current_time := time_time w in
      if float_lt_int (current_time - last_error_alert st) ALERT_COOLDOWN_SEC
      then ret tt
      else
        let message :=
          HighErrorRate (error_rate window) ERROR_RATE_THRESHOLD
            (error_count window) (Z.of_nat (length window)) WINDOW_SIZE in
        send_slack_alert w message (lit "error") ;;
        set_last_error_alert current_time ;;
        emit (print_error_rate (error_rate window) (error_count window)
                (Z.of_nat (length window)))
    else ret tt.

(** [if status > 0: request_window.append(status)] *)
Definition track_request (status : Z) : M unit :=
  if (0 <? status)%Z then
    st <- get_state ;;
    set_request_window (Py.deque_append WINDOW_SIZE (request_window st) status)
  else ret tt.

(** The body of the loop of [tail_log_file] for one line read from the
    source: [wf] answers [check_failover], [we] answers
    [check_error_rate]. *)
Definition process_line (wf we : world) (line : str) : M unit :=
  let line := Py.strip line in
  if str_eqb line [] then ret tt
  else
    match parse_log_line int_max_str_digits line with
    | None => ret tt
    | Some data =>
        let pool := pool data in
        let status := upstream_status data in
        track_request status ;;
        (if negb (str_eqb pool []) && negb (str_eqb pool (lit "unknown"))
         then check_failover wf pool
         else ret tt) ;;
        check_error_rate we
    end.

(** The passes of the loop of [tail_log_file] over the lines [readline] has
    given so far; the reading itself, with the exceptions it can raise, is
    in [tail_log_file_from_source] below. *)
Fixpoint tail_log_file (input : list (world * world * str)) : M unit :=
  match input with
  | [] => ret tt
  | (wf, we, line) :: input' =>
      process_line wf we line ;;
      tail_log_file input'
  end.

(** A run of [check_failover] over the pools observed, one after the
    other. *)
Fixpoint observe_pools (obs : list (world * str)) : M unit :=
  match obs with
  | [] => ret tt
  | (w, pool) :: obs' =>
      check_failover w pool ;;
      observe_pools obs'
  end.

(** A run of the window's admission over the statuses of the records. *)
Fixpoint record_statuses (statuses : list Z) : M unit :=
  match statuses with
  | [] => ret tt
  | status :: statuses' =>
      track_request status ;;
      record_statuses statuses'
  end.

End Watcher.

(** The state a computation ends in. *)
Definition state_after {A} (m : M A) (st : State) : State := snd (fst (m st)).

(** What a computation prints and sends. *)
Definition output_of {A} (m : M A) (st : State) : list output := snd (m st).

(** What a computation returns or raises. *)
Definition result_of {A} (m : M A) (st : State) : result A := fst (fst (m st)).

(** ** The loop with its source *)

(** What starting [tail] or reading a line of its output raises, such as the
    decoding error of a line that is not text; each derives from
    [Exception]. *)
Inductive source_exn : Type :=
| UnicodeDecodeError
| OSError (what : str).

(** One turn of [readline]: a line with the answers of the outside world to
    its pass of the loop, or an exception.  The empty line is the end of the
    stream, as [iter(readline, '')] has it. *)
Inductive read : Type :=
| read_line (wf we : world) (line : str)
| read_raises (e : source_exn).

(** What the [except] clause of [tail_log_file] can catch: an exception of
    the source, or one that a pass of the loop raised. *)
Inductive tail_exn : Type :=
| source_failed (e : source_exn)
| pass_failed (e : exn).

(** How [tail_log_file] ends. *)
Inductive tail_result : Type :=
| returned
| reraised (e : tail_exn).

(** What [tail_log_file] prints and does, in order. *)
Inductive tail_output : Type :=
| print_watching
| print_config (threshold : float) (window_size : nat) (cooldown : Z)
| print_waiting
| print_log_found
| pass_output (o : output)
| print_tail_error (e : tail_exn)
| terminate_tail.

(** The [for] loop of [tail_log_file] inside its [try], with the [except]
    clause: an exception is printed and raised again. *)
Fixpoint read_loop (url : str) (thr : float) (ws : nat) (cd : Z) (n : nat)
         (reads : list read) (st : State)
  : tail_result * State * list tail_output :=
  match reads with
  | [] => (returned, st, [])
  | read_raises e :: _ =>
      (reraised (source_failed e), st, [print_tail_error (source_failed e)])
  | read_line wf we line :: reads' =>
      if str_eqb line [] then (returned, st, [])
      else
        match process_line url thr ws cd n wf we line st with
        | (Return _, st1, out1) =>
            let '(r, st2, out2) := read_loop url thr ws cd n reads' st1 in
            (r, st2, map pass_output out1 ++ out2)
        | (Raise e, st1, out1) =>
            (reraised (pass_failed e), st1,
             map pass_output out1 ++ [print_tail_error (pass_failed e)])
        end
  end.

(** [tail_log_file()] as a whole.  [polls] counts the times the log file was
    not there yet; [popen] is the exception of [subprocess.Popen], if it
    raises; [reads] is what [readline] gives, turn after turn, an exhausted
    list being the end of the stream.  The [finally] clause stops [tail]
    when it was started. *)
Definition tail_log_file_from_source (url : str) (thr : float) (ws : nat)
           (cd : Z) (n : nat) (polls : nat) (popen : option source_exn)
           (reads : list read) (st : State)
  : tail_result * State * list tail_output :=
  let banner :=
    [print_watching; print_config thr ws cd]
    ++ repeat print_waiting polls ++ [print_log_found] in
  match popen with
  | Some e =>
      (reraised (source_failed e), st,
       banner ++ [print_tail_error (source_failed e)])
  | None =>
      let '(r, st', out) := read_loop url thr ws cd n reads st in
      (r, st', banner ++ out ++ [terminate_tail])
  end.

(** The pattern has no match that starts inside [pre], when the line is
    [pre ++ suf]. *)
Fixpoint no_earlier_match (pre suf : str) : bool :=
  match pre with
  | [] => true
  | _ :: pre' =>
      match Re.match_here LOG_PATTERN (pre ++ suf) with
      | Some _ => false
      | None => no_earlier_match pre' suf
      end
  end.

(** No double quote in [v]. *)
Definition quote_free (v : str) : bool := forallb not_dq v.

Unset Implicit Arguments.

(** ** The vocabulary of the statements *)

(** The dictionary of a match of [LOG_PATTERN] on the four values. *)
Definition groups_of (p r u a : str) : Re.groupdict :=
  [ (lit "pool", p); (lit "release", r);
    (lit "upstream_status", u); (lit "upstream_addr", a) ].

Definition comma_free (tok : str) : bool :=
  forallb (fun c => negb (Ascii.eqb c ","%char)) tok.

(** The last [n] items of a list, in their order. *)
Definition last_n {A} (n : nat) (l : list A) : list A :=
  skipn (length l - n) l.

(** The statuses the window admits. *)
Definition admitted (statuses : list Z) : list Z :=
  filter (fun status => (0 <? status)%Z) statuses.

(** Whether the channel accepted the alert. *)
Definition delivered (url : str) (w : world) : bool :=
  negb (str_eqb url []) &&
  match requests_post w with
  | Response status_code _ => (status_code =? 200)%Z
  | Raises _ => false
  end.

(** What [send_slack_alert] prints and sends. *)
Definition slack_output (url : str) (w : world) (message : alert_message)
           (alert_type : str) : list output :=
  if str_eqb url [] then [print_no_webhook message]
  else
    post url (emoji_of alert_type) message ::
    match requests_post w with
    | Response status_code text =>
        if (status_code =? 200)%Z then [print_alert_sent alert_type]
        else [print_alert_failed status_code; print_response (firstn 100 text)]
    | Raises e => [print_alert_error e]
    end.

(** An alert was attempted: posted to the channel, or printed when there is
    no channel. *)
Definition is_alert (o : output) : bool :=
  match o with
  | post _ _ _ => true
  | print_no_webhook _ => true
  | _ => false
  end.

Definition alert_attempted (out : list output) : bool := existsb is_alert out.

Definition with_last_pool (st : State) (p : str) : State :=
  {| last_pool := Some p;
     request_window := request_window st;
     last_failover_alert := last_failover_alert st;
     last_error_alert := last_error_alert st |}.

(** The number of statuses of the window that are 500 or more. *)
Definition errors_in (window : list Z) : nat :=
  length (filter (fun status => (500 <=? status)%Z) window).


(** The text [key="v"]. *)
Definition field_text (key v : str) : str := key ++ lit "=" ++ [dq] ++ v ++ [dq].

(** The line contains [key="v"] for some value [v]. *)
Definition has_field (key line : str) : Prop :=
  exists pre v post,
    quote_free v = true /\ line = pre ++ field_text key v ++ post.

(** A line with the four fields, [release] before [pool]. *)
Definition reordered_line : str :=
  field_text (lit "release") (lit "v1") ++ lit " " ++
  field_text (lit "pool") (lit "blue") ++ lit " " ++
  field_text (lit "upstream_status") (lit "200") ++ lit " " ++
  field_text (lit "upstream_addr") (lit "10.0.0.1:80").

(** A line where every field is the sentinel. *)
Definition dash_line : str :=
  lit "GET / HTTP/1.1 " ++ fields_text (lit "-") (lit "-") (lit "-") (lit "-") ++
  lit " request_time=0.002".

(** Scenario B of the specification: ten 503 and then one 200. *)
Definition scenario_B_window : list Z := repeat 503%Z 10 ++ [200%Z].

(** A clock that reads 100 seconds after the epoch, and a channel that
    accepts every alert. *)
Definition early_world : world :=
  {| time_time := 100; requests_post := Response 200 (lit "ok") |}.

(** A clock at a date of 2025. *)
Definition world_2025 (answer : post_outcome) : world :=
  {| time_time := 1762200000; requests_post := answer |}.

(** The state once the pool blue has been observed. *)
Definition blue_state : State :=
  {| last_pool := Some (lit "blue");
     request_window := [];
     last_failover_alert := 0;
     last_error_alert := 0 |}.

(** A log line of the pool [pool] whose upstream answered [status]. *)
Definition access_line (pool status : string) : str :=
  lit "10.0.0.7 GET /version " ++
  fields_text (lit pool) (lit "v1.0.3") (lit status) (lit "172.18.0.3:3000") ++
  lit " request_time=0.004".

(** The loop's input for one line read at [now], the channel accepting. *)
Definition read_at (now : float) (line : str) : world * world * str :=
  ({| time_time := now; requests_post := Response 200 (lit "ok") |},
   {| time_time := now; requests_post := Response 200 (lit "ok") |},
   line).

(** The state once green has taken over from blue, the alert sent at a
    date of 2025. *)
Definition green_state : State :=
  {| last_pool := Some (lit "green");
     request_window := [];
     last_failover_alert := 1762200000;
     last_error_alert := 0 |}.

(** ** The vocabulary of the further properties *)

(** The pool of a record goes to the failover detector. *)
Definition known_pool (data : LogRecord) : bool :=
  negb (str_eqb (pool data) []) && negb (str_eqb (pool data) (lit "unknown")).

(** The window after the loop has read a line whose record is [r]. *)
Definition window_after (WS : nat) (r : option LogRecord) (window : list Z)
  : list Z :=
  match r with
  | Some data =>
      if (0 <? upstream_status data)%Z
      then Py.deque_append WS window (upstream_status data)
      else window
  | None => window
  end.

(** The recorded pool after the loop has read a line whose record is [r]. *)
Definition pool_after (r : option LogRecord) (recorded : option str)
  : option str :=
  match r with
  | Some data => if known_pool data then Some (pool data) else recorded
  | None => recorded
  end.

(** The statuses of the lines of the input that parse, in their order. *)
Fixpoint statuses_of (n : nat) (input : list (world * world * str)) : list Z :=
  match input with
  | [] => []
  | (_, _, line) :: input' =>
      match parse_log_line n (Py.strip line) with
      | Some data => upstream_status data :: statuses_of n input'
      | None => statuses_of n input'
      end
  end.

(** The known pools of the lines of the input that parse, in their order. *)
Fixpoint known_pools (n : nat) (input : list (world * world * str)) : list str :=
  match input with
  | [] => []
  | (_, _, line) :: input' =>
      match parse_log_line n (Py.strip line) with
      | Some data =>
          if known_pool data then pool data :: known_pools n input'
          else known_pools n input'
      | None => known_pools n input'
      end
  end.

(** The number of POST requests in an output. *)
Definition count_posts (out : list output) : nat :=
  length (filter (fun o => match o with post _ _ _ => true | _ => false end) out).

(** Every character of [s] is white space for [strip]. *)
Definition all_space (s : str) : bool := forallb Py.isspace s.



(** Lines of two pools, with one that does not parse and one without a
    status. *)
Definition mixed_input : list (world * world * str) :=
  [read_at 1762200000 (access_line "blue" "200");
   read_at 1762200001 (access_line "blue" "502,503");
   read_at 1762200002 (lit "not an access line");
   read_at 1762200003 (access_line "green" "-");
   read_at 1762200004 (access_line "green" "404")].

(** * Properties *)

(** ** The runtime on examples *)

Example int_examples :
  Py.int 4300 (lit " 200 ") = Some 200%Z /\
  Py.int 4300 (lit "-5") = Some (-5)%Z /\
  Py.int 4300 (lit "+007") = Some 7%Z /\
  Py.int 4300 (lit "1_000") = Some 1000%Z /\
  Py.int 4300 (lit "1__0") = None /\
  Py.int 4300 (lit "_1") = None /\
  Py.int 4300 (lit "1_") = None /\
  Py.int 4300 (lit "") = None /\
  Py.int 4300 (lit "-") = None /\
  Py.int 4300 (lit "- 5") = None /\
  Py.int 4300 (lit "50x") = None /\
  Py.int 4300 (lit "2.5") = None.
Proof. repeat split. Qed.

Example int_digit_limit :
  Py.int 4300 (repeat "1"%char 4301) = None /\
  Py.int 0 (repeat "0"%char 4301) = Some 0%Z /\
  Py.int 4300 (repeat "0"%char 4300) = Some 0%Z.
Proof. split; [|split]; vm_compute; reflexivity. Qed.

Example split_strip_examples :
  Py.split ","%char (lit "502,502,200") = [lit "502"; lit "502"; lit "200"] /\
  Py.split ","%char (lit "200") = [lit "200"] /\
  Py.split ","%char (lit "") = [lit ""] /\
  Py.split ","%char (lit "a,,b,") = [lit "a"; lit ""; lit "b"; lit ""] /\
  Py.strip (lit "  502 , 200  ") = lit "502 , 200" /\
  Py.strip (lit "   ") = lit "".
Proof. repeat split. Qed.

Example deque_append_examples :
  Py.deque_append 3 [1; 2] 3 = [1; 2; 3] /\
  Py.deque_append 3 [1; 2; 3] 4 = [2; 3; 4] /\
  Py.deque_append 0 [] 4 = ([] : list nat).
Proof. repeat split. Qed.

(** ** Strings and the pattern *)

Lemma ascii_eqb_refl (c : ascii) : Ascii.eqb c c = true.
Proof. apply Ascii.eqb_eq. reflexivity. Qed.

Lemma str_eqb_eq (a b : str) : str_eqb a b = true <-> a = b.
Proof.
  revert b. induction a as [|x a IH]; intros [|y b]; simpl; split;
    try congruence; try reflexivity.
  - intros H. apply andb_true_iff in H. destruct H as [Hx Hab].
    apply Ascii.eqb_eq in Hx. apply IH in Hab. congruence.
  - intros H. injection H as -> ->. rewrite ascii_eqb_refl. simpl.
    apply IH. reflexivity.
Qed.

Lemma str_eqb_neq (a b : str) : str_eqb a b = false <-> a <> b.
Proof.
  split.
  - intros H E. apply str_eqb_eq in E. congruence.
  - intros H. destruct (str_eqb a b) eqn:E; [|reflexivity].
    apply str_eqb_eq in E. contradiction.
Qed.

Lemma lit_prefix_app (l r : str) : Re.lit_prefix l (l ++ r) = Some r.
Proof.
  induction l as [|a l IH]; simpl; [reflexivity|].
  rewrite ascii_eqb_refl. exact IH.
Qed.

Lemma lit_prefix_Some (l s r : str) : Re.lit_prefix l s = Some r -> s = l ++ r.
Proof.
  revert s. induction l as [|a l IH]; intros s H; simpl in *.
  - congruence.
  - destruct s as [|b s]; [discriminate|].
    destruct (Ascii.eqb a b) eqn:E; [|discriminate].
    apply Ascii.eqb_eq in E. subst b. f_equal. apply IH. exact H.
Qed.

Section Star.

Variable name : str.
Variable k : str -> option Re.groupdict.

(** A greedy star over the characters other than the quote stops at the
    first quote, when what follows the group cannot start with another
    character: backtracking never finds a shorter match. *)
Lemma star_to_quote (v rest taken : str) :
  (forall c t, not_dq c = true -> k (c :: t) = None) ->
  quote_free v = true ->
  Re.star not_dq name k taken (v ++ dq :: rest)
  = option_map (cons (name, rev taken ++ v)) (k (dq :: rest)).
Proof.
  intros Hk. revert taken.
  induction v as [|c v IH]; intros taken Hv; simpl in *.
  - rewrite app_nil_r. reflexivity.
  - apply andb_true_iff in Hv. destruct Hv as [Hc Hv].
    rewrite Hc, (IH (c :: taken) Hv). simpl. rewrite <- app_assoc. simpl.
    destruct (k (dq :: rest)); simpl; [reflexivity|].
    rewrite (Hk c _ Hc). reflexivity.
Qed.

(** What a successful star took is free of quotes, and the rest of the
    pattern matched what follows. *)
Lemma star_Some (s taken : str) (g : Re.groupdict) :
  Re.star not_dq name k taken s = Some g ->
  exists v rest g',
    s = v ++ rest /\ quote_free v = true /\
    k rest = Some g' /\ g = (name, rev taken ++ v) :: g'.
Proof.
  revert taken. induction s as [|c s IH]; intros taken H; simpl in H.
  - destruct (k []) as [g'|] eqn:E; [|discriminate]. simpl in H.
    exists [], [], g'. repeat split; rewrite ?app_nil_r; congruence.
  - assert (Hstop : option_map (cons (name, rev taken)) (k (c :: s)) = Some g ->
                    exists v rest g',
                      c :: s = v ++ rest /\ quote_free v = true /\
                      k rest = Some g' /\ g = (name, rev taken ++ v) :: g').
    { intros Hs. destruct (k (c :: s)) as [g'|] eqn:E; [|discriminate].
      simpl in Hs. exists [], (c :: s), g'.
      repeat split; rewrite ?app_nil_r; congruence. }
    destruct (not_dq c) eqn:Hc; [|auto].
    destruct (Re.star not_dq name k (c :: taken) s) as [g1|] eqn:E; [|auto].
    injection H as ->. apply IH in E.
    destruct E as (v & rest & g' & -> & Hv & Hk & ->).
    exists (c :: v), rest, g'. simpl. rewrite Hc, Hv, <- app_assoc.
    repeat split; auto.
Qed.

End Star.

Lemma match_here_lit (l s : str) (p : list Re.item) :
  Re.match_here (Re.Lit l :: p) (l ++ s) = Re.match_here p s.
Proof. simpl. rewrite lit_prefix_app. reflexivity. Qed.

Lemma match_here_lit_Some (l s : str) (p : list Re.item) (g : Re.groupdict) :
  Re.match_here (Re.Lit l :: p) s = Some g ->
  exists rest, s = l ++ rest /\ Re.match_here p rest = Some g.
Proof.
  simpl. destruct (Re.lit_prefix l s) as [rest|] eqn:E; [|discriminate].
  intros H. exists rest. split; [apply lit_prefix_Some; exact E | exact H].
Qed.

Lemma match_here_group (name l v s : str) (p : list Re.item) :
  quote_free v = true ->
  Re.match_here (Re.Group name not_dq :: Re.Lit ([dq] ++ l) :: p)
                (v ++ ([dq] ++ l) ++ s)
  = option_map (cons (name, v)) (Re.match_here p s).
Proof.
  intros Hv.
  change (Re.match_here (Re.Group name not_dq :: Re.Lit ([dq] ++ l) :: p))
    with (Re.star not_dq name (Re.match_here (Re.Lit ([dq] ++ l) :: p)) []).
  change (v ++ ([dq] ++ l) ++ s) with (v ++ dq :: (l ++ s)).
  rewrite star_to_quote; [| |exact Hv].
  - change (dq :: l ++ s) with (([dq] ++ l) ++ s).
    rewrite match_here_lit. reflexivity.
  - intros c t Hc. cbn [Re.match_here Re.lit_prefix app].
    unfold not_dq in Hc. apply negb_true_iff in Hc.
    rewrite Ascii.eqb_sym, Hc. reflexivity.
Qed.

Lemma match_here_group_Some (name s : str) (p : list Re.item) (g : Re.groupdict) :
  Re.match_here (Re.Group name not_dq :: p) s = Some g ->
  exists v rest g',
    s = v ++ rest /\ quote_free v = true /\
    Re.match_here p rest = Some g' /\ g = (name, v) :: g'.
Proof.
  intros H.
  change (Re.star not_dq name (Re.match_here p) [] s = Some g) in H.
  apply star_Some in H. exact H.
Qed.

Lemma fields_text_grouped (p r u a post : str) :
  fields_text p r u a ++ post
  = (lit "pool=" ++ [dq]) ++ p ++
    (([dq] ++ lit " release=" ++ [dq]) ++ r ++
     (([dq] ++ lit " upstream_status=" ++ [dq]) ++ u ++
      (([dq] ++ lit " upstream_addr=" ++ [dq]) ++ a ++
       ([dq] ++ []) ++ post))).
Proof. unfold fields_text. rewrite <- !app_assoc. reflexivity. Qed.

(** [LOG_PATTERN] matches at the start of the text of the four fields, and
    the groups hold the four values. *)
Lemma match_here_fields (p r u a post : str) :
  quote_free p = true -> quote_free r = true ->
  quote_free u = true -> quote_free a = true ->
  Re.match_here LOG_PATTERN (fields_text p r u a ++ post)
  = Some (groups_of p r u a).
Proof.
  intros Hp Hr Hu Ha.
  rewrite fields_text_grouped. unfold LOG_PATTERN.
  rewrite match_here_lit.
  rewrite match_here_group by exact Hp.
  rewrite match_here_group by exact Hr.
  rewrite match_here_group by exact Hu.
  change (Re.Lit [dq]) with (Re.Lit ([dq] ++ [])).
  rewrite match_here_group by exact Ha.
  reflexivity.
Qed.

(** Where [LOG_PATTERN] matches, the text starts with the four fields in the
    pattern's order, each value free of quotes. *)
Lemma match_here_LOG_PATTERN (s : str) (g : Re.groupdict) :
  Re.match_here LOG_PATTERN s = Some g ->
  exists p r u a post,
    s = fields_text p r u a ++ post /\
    quote_free p = true /\ quote_free r = true /\
    quote_free u = true /\ quote_free a = true /\
    g = groups_of p r u a.
Proof.
  unfold LOG_PATTERN. intros H.
  apply match_here_lit_Some in H. destruct H as (s1 & -> & H).
  apply match_here_group_Some in H. destruct H as (p & s2 & g2 & -> & Hp & H & ->).
  apply match_here_lit_Some in H. destruct H as (s3 & -> & H).
  apply match_here_group_Some in H. destruct H as (r & s4 & g4 & -> & Hr & H & ->).
  apply match_here_lit_Some in H. destruct H as (s5 & -> & H).
  apply match_here_group_Some in H. destruct H as (u & s6 & g6 & -> & Hu & H & ->).
  apply match_here_lit_Some in H. destruct H as (s7 & -> & H).
  apply match_here_group_Some in H. destruct H as (a & s8 & g8 & -> & Ha & H & ->).
  apply match_here_lit_Some in H. destruct H as (post & -> & H).
  simpl in H. injection H as <-.
  exists p, r, u, a, post. repeat split; try assumption.
  unfold fields_text. rewrite <- !app_assoc. reflexivity.
Qed.

(** [search] finds the match at the first position that has one. *)
Lemma search_first (pre suf : str) :
  no_earlier_match pre suf = true ->
  Re.search LOG_PATTERN (pre ++ suf) = Re.search LOG_PATTERN suf.
Proof.
  induction pre as [|c pre IH]; intros H; [reflexivity|].
  cbn [no_earlier_match] in H.
  destruct (Re.match_here LOG_PATTERN ((c :: pre) ++ suf)) eqn:E; [discriminate|].
  cbn [app Re.search]. cbn [app] in E. rewrite E. apply IH. exact H.
Qed.

Lemma search_app (pre suf : str) :
  Re.search LOG_PATTERN suf <> None ->
  Re.search LOG_PATTERN (pre ++ suf) <> None.
Proof.
  intros H. induction pre as [|c pre IH]; [exact H|].
  cbn [app Re.search].
  destruct (Re.match_here LOG_PATTERN (c :: pre ++ suf)); [discriminate|exact IH].
Qed.

Lemma search_Some (s : str) (g : Re.groupdict) :
  Re.search LOG_PATTERN s = Some g ->
  exists pre suf,
    s = pre ++ suf /\ no_earlier_match pre suf = true /\
    Re.match_here LOG_PATTERN suf = Some g.
Proof.
  induction s as [|c s IH]; intros H; cbn [Re.search] in H.
  - destruct (Re.match_here LOG_PATTERN []) eqn:E; [|discriminate].
    exists [], []. repeat split. congruence.
  - destruct (Re.match_here LOG_PATTERN (c :: s)) eqn:E.
    + exists [], (c :: s). repeat split. congruence.
    + apply IH in H. destruct H as (pre & suf & -> & Hn & Hm).
      exists (c :: pre), suf. repeat split; [|exact Hm].
      cbn [no_earlier_match app]. rewrite E. exact Hn.
Qed.

Lemma search_fields (pre p r u a post : str) :
  no_earlier_match pre (fields_text p r u a ++ post) = true ->
  quote_free p = true -> quote_free r = true ->
  quote_free u = true -> quote_free a = true ->
  Re.search LOG_PATTERN (pre ++ fields_text p r u a ++ post)
  = Some (groups_of p r u a).
Proof.
  intros Hn Hp Hr Hu Ha. rewrite (search_first _ _ Hn).
  destruct (fields_text p r u a ++ post) eqn:E; cbn [Re.search];
    rewrite <- E, match_here_fields by assumption; reflexivity.
Qed.

(** The four keys [parse_log_line] reads are bound in the dictionary of
    every match, to the four values. *)
Lemma LOG_PATTERN_groupdict (p r u a : str) :
  Re.get (lit "pool") (groups_of p r u a) = p /\
  Re.get (lit "release") (groups_of p r u a) = r /\
  Re.get (lit "upstream_status") (groups_of p r u a) = u /\
  Re.get (lit "upstream_addr") (groups_of p r u a) = a.
Proof. repeat split. Qed.

Lemma search_of_match (s : str) (g : Re.groupdict) :
  Re.match_here LOG_PATTERN s = Some g -> Re.search LOG_PATTERN s = Some g.
Proof. intros H. destruct s; cbn [Re.search]; rewrite H; reflexivity. Qed.

(** The record [parse_log_line] builds from the leftmost match. *)
Lemma parse_log_line_fields (n : nat) (pre p r u a post : str) :
  no_earlier_match pre (fields_text p r u a ++ post) = true ->
  quote_free p = true -> quote_free r = true ->
  quote_free u = true -> quote_free a = true ->
  parse_log_line n (pre ++ fields_text p r u a ++ post)
  = Some {| pool := unknown_if_dash p;
            release := unknown_if_dash r;
            upstream_status := status_code n u;
            upstream_addr := a |}.
Proof.
  intros Hn Hp Hr Hu Ha. unfold parse_log_line.
  rewrite search_fields by assumption. reflexivity.
Qed.

(** ** [split] and the last status *)

Lemma split_not_nil (sep : ascii) (s : str) : Py.split sep s <> [].
Proof.
  destruct s as [|c s]; simpl; [discriminate|].
  destruct (Ascii.eqb c sep); [discriminate|].
  destruct (Py.split sep s); discriminate.
Qed.

Lemma split_app_sep (sep : ascii) (a b : str) :
  Py.split sep (a ++ sep :: b) = Py.split sep a ++ Py.split sep b.
Proof.
  induction a as [|c a IH]; simpl.
  - rewrite ascii_eqb_refl. reflexivity.
  - rewrite IH. destruct (Ascii.eqb c sep); [reflexivity|].
    pose proof (split_not_nil sep a) as Hne.
    destruct (Py.split sep a); [contradiction|reflexivity].
Qed.

Lemma split_no_sep (sep : ascii) (tok : str) :
  forallb (fun c => negb (Ascii.eqb c sep)) tok = true ->
  Py.split sep tok = [tok].
Proof.
  induction tok as [|c tok IH]; simpl; intros H; [reflexivity|].
  apply andb_true_iff in H. destruct H as [Hc Ht].
  apply negb_true_iff in Hc. rewrite Hc, (IH Ht). reflexivity.
Qed.

(** The last item of the split is what follows the last separator. *)
Lemma last_item_split (pre tok : str) :
  comma_free tok = true ->
  Py.last_item (Py.split ","%char (pre ++ ","%char :: tok)) = tok.
Proof.
  intros H. rewrite split_app_sep, (split_no_sep _ _ H).
  unfold Py.last_item. apply last_last.
Qed.

Lemma status_code_after_comma (n : nat) (pre tok : str) :
  comma_free tok = true ->
  status_code n (pre ++ ","%char :: tok)
  = match Py.int n (Py.strip tok) with Some v => v | None => 0%Z end.
Proof.
  intros H. unfold status_code.
  rewrite (last_item_split pre tok H).
  destruct pre as [|c [|c' pre]]; cbn [app str_eqb lit list_ascii_of_string];
    rewrite ?andb_false_r; reflexivity.
Qed.

Lemma status_code_single (n : nat) (tok : str) :
  comma_free tok = true ->
  status_code n tok
  = match Py.int n (Py.strip tok) with Some v => v | None => 0%Z end.
Proof.
  intros H. unfold status_code.
  destruct (str_eqb tok []) eqn:E0.
  { apply str_eqb_eq in E0. subst tok. reflexivity. }
  destruct (str_eqb tok (lit "-")) eqn:E1.
  { apply str_eqb_eq in E1. subst tok. reflexivity. }
  cbn [negb andb]. rewrite (split_no_sep _ _ H). reflexivity.
Qed.

(** ** The monad *)

Lemma state_after_bind {A B} (m : M A) (f : A -> M B) (st st1 : State)
      (a : A) (out1 : list output) :
  m st = (Return a, st1, out1) ->
  state_after (bind m f) st = state_after (f a) st1.
Proof.
  intros H. unfold state_after, bind. rewrite H.
  destruct (f a st1) as [[r st2] out2]. reflexivity.
Qed.

(** ** The error-rate window *)

Lemma length_last_n {A} (n : nat) (l : list A) : length (last_n n l) <= n.
Proof. unfold last_n. rewrite length_skipn. lia. Qed.

Lemma deque_append_last_n {A} (maxlen : nat) (d : list A) (x : A) :
  length d <= maxlen ->
  Py.deque_append maxlen d x = last_n maxlen (d ++ [x]).
Proof.
  intros H. unfold Py.deque_append, last_n.
  rewrite length_app. cbn [length].
  destruct (Nat.ltb_spec maxlen (length d + 1)) as [Hlt|Hge].
  - replace (length d + 1 - maxlen) with 1 by lia.
    destruct (d ++ [x]); reflexivity.
  - replace (length d + 1 - maxlen) with 0 by lia. reflexivity.
Qed.

Lemma last_n_app {A} (n : nat) (l m : list A) :
  last_n n (last_n n l ++ m) = last_n n (l ++ m).
Proof.
  unfold last_n. rewrite !length_app, length_skipn.
  destruct (Nat.le_gt_cases (length l) n) as [Hle|Hgt].
  - replace (length l - n) with 0 by lia. cbn [skipn].
    replace (length l - 0) with (length l) by lia. reflexivity.
  - replace (length l - (length l - n) + length m - n) with (length m) by lia.
    replace (length l + length m - n) with (length m + (length l - n)) by lia.
    rewrite <- skipn_skipn. f_equal.
    rewrite skipn_app.
    replace (length l - n - length l) with 0 by lia. reflexivity.
Qed.

Lemma last_n_app_long {A} (n : nat) (l m : list A) :
  n <= length m -> last_n n (l ++ m) = last_n n m.
Proof.
  intros H. unfold last_n. rewrite length_app, skipn_app.
  rewrite skipn_all2 by lia. cbn [app]. f_equal. lia.
Qed.

Lemma track_request_eq (WS : nat) (status : Z) (st : State) :
  track_request WS status st
  = (Return tt,
     {| last_pool := last_pool st;
        request_window :=
          if (0 <? status)%Z
          then Py.deque_append WS (request_window st) status
          else request_window st;
        last_failover_alert := last_failover_alert st;
        last_error_alert := last_error_alert st |},
     []).
Proof.
  unfold track_request. destruct (0 <? status)%Z; [reflexivity|].
  destruct st; reflexivity.
Qed.

(** After any statuses, the window is the last [WINDOW_SIZE] of what it held
    followed by the admitted ones. *)
Lemma record_statuses_window (WS : nat) (statuses : list Z) (st : State) :
  length (request_window st) <= WS ->
  request_window (state_after (record_statuses WS statuses) st)
  = last_n WS (request_window st ++ admitted statuses).
Proof.
  revert st. induction statuses as [|x xs IH]; intros st H.
  - cbn. rewrite app_nil_r. unfold last_n.
    replace (length (request_window st) - WS) with 0 by lia. reflexivity.
  - cbn [record_statuses].
    rewrite (state_after_bind _ _ st _ tt [] (track_request_eq WS x st)).
    rewrite IH; cbn [request_window admitted filter].
    + destruct (0 <? x)%Z; [|reflexivity].
      rewrite deque_append_last_n by exact H.
      rewrite last_n_app, <- app_assoc. reflexivity.
    + destruct (0 <? x)%Z; [|exact H].
      rewrite deque_append_last_n by exact H. apply length_last_n.
Qed.

Lemma admitted_all (statuses : list Z) :
  Forall (fun status => (0 < status)%Z) statuses -> admitted statuses = statuses.
Proof.
  induction 1 as [|x xs Hx _ IH]; [reflexivity|].
  cbn. destruct (Z.ltb_spec 0 x); [|lia]. f_equal. exact IH.
Qed.

(** ** The notifier *)

(** [send_slack_alert] always returns, and leaves the globals as they are. *)
Lemma send_slack_alert_eq (url : str) (w : world) (message : alert_message)
      (alert_type : str) (st : State) :
  send_slack_alert url w message alert_type st
  = (Return (delivered url w), st, slack_output url w message alert_type).
Proof.
  unfold send_slack_alert, delivered, slack_output.
  destruct (str_eqb url []); [reflexivity|].
  unfold try_except, bind, do_post, emit, ret, raise.
  destruct (requests_post w) as [status_code text|e]; cbn.
  - destruct (status_code =? 200)%Z; reflexivity.
  - reflexivity.
Qed.

Lemma slack_output_attempted (url : str) (w : world) (message : alert_message)
      (alert_type : str) :
  alert_attempted (slack_output url w message alert_type) = true.
Proof. unfold slack_output. destruct (str_eqb url []); reflexivity. Qed.

(** ** The failover detector and the cooldown gate *)

Lemma check_failover_eq (url : str) (cd : Z) (w : world) (pool : str) (st : State) :
  check_failover url cd w pool st
  = match last_pool st with
    | None => (Return tt, with_last_pool st pool, [print_initial_pool pool])
    | Some previous =>
        if str_eqb pool previous then (Return tt, st, [])
        else if float_lt_int (time_time w - last_failover_alert st) cd
        then (Return tt, with_last_pool st pool,
              [print_in_cooldown (time_time w - last_failover_alert st)])
        else (Return tt,
              {| last_pool := Some pool;
                 request_window := request_window st;
                 last_failover_alert := time_time w;
                 last_error_alert := last_error_alert st |},
              slack_output url w (FailoverDetected previous pool) (lit "failover")
              ++ [print_failover previous pool])
    end.
Proof.
  unfold check_failover, bind, get_state.
  destruct (last_pool st) as [previous|]; [|reflexivity].
  destruct (str_eqb pool previous); cbn [negb]; [reflexivity|].
  destruct (float_lt_int (time_time w - last_failover_alert st) cd);
    [reflexivity|].
  rewrite send_slack_alert_eq. reflexivity.
Qed.

Lemma check_error_rate_eq (url : str) (thr : float) (ws : nat) (cd : Z)
      (w : world) (st : State) :
  check_error_rate url thr ws cd w st
  = let window := request_window st in
    if length window <? 10 then (Return tt, st, [])
    else if (thr <? error_rate window)%float then
      if float_lt_int (time_time w - last_error_alert st) cd
      then (Return tt, st, [])
      else (Return tt,
            {| last_pool := last_pool st;
               request_window := request_window st;
               last_failover_alert := last_failover_alert st;
               last_error_alert := time_time w |},
            slack_output url w
              (HighErrorRate (error_rate window) thr (error_count window)
                 (Z.of_nat (length window)) ws) (lit "error")
            ++ [print_error_rate (error_rate window) (error_count window)
                  (Z.of_nat (length window))])
    else (Return tt, st, []).
Proof.
  unfold check_error_rate, bind, get_state. cbv zeta.
  destruct (length (request_window st) <? 10); [reflexivity|].
  destruct (thr <? error_rate (request_window st))%float; [|reflexivity].
  destruct (float_lt_int (time_time w - last_error_alert st) cd);
    [reflexivity|].
  rewrite send_slack_alert_eq. cbn. reflexivity.
Qed.

Lemma alert_attempted_app (a b : list output) :
  alert_attempted (a ++ b) = alert_attempted a || alert_attempted b.
Proof. apply existsb_app. Qed.

(** Python's [x >= n] excludes [x < n]. *)
Lemma float_ge_not_lt (x : float) (n : Z) :
  float_ge_int x n = true -> float_lt_int x n = false.
Proof.
  unfold float_ge_int, float_lt_int.
  destruct (Prim2SF x) as [s|s| |s m e]; try discriminate.
  - intros H. apply Z.leb_le in H. apply Z.ltb_ge. exact H.
  - destruct s; [discriminate|reflexivity].
  - destruct (0 <=? e)%Z; intros H; apply Z.leb_le in H; apply Z.ltb_ge; exact H.
Qed.

(** ** The error rate *)

Lemma fold_add_ones {A} (l : list A) (acc : Z) :
  fold_left Z.add (map (fun _ => 1%Z) l) acc = (acc + Z.of_nat (length l))%Z.
Proof.
  revert acc. induction l as [|x l IH]; intros acc; cbn [map fold_left length].
  - lia.
  - rewrite IH. lia.
Qed.

Lemma error_count_errors_in (window : list Z) :
  error_count window = Z.of_nat (errors_in window).
Proof. unfold error_count, errors_in. rewrite fold_add_ones. lia. Qed.

(** * The claims *)

(** ** The line parser *)

(** C1, counterexample: a line that contains the four substrings
    [pool="blue"], [release="v1"], [upstream_status="200"] and
    [upstream_addr="10.0.0.1:80"], with [release] written first, is not
    parsed: [parse_log_line] returns [None]. *)
Lemma parse_log_line_reordered_fields :
  has_field (lit "pool") reordered_line /\
  has_field (lit "release") reordered_line /\
  has_field (lit "upstream_status") reordered_line /\
  has_field (lit "upstream_addr") reordered_line /\
  parse_log_line 4300 reordered_line = None.
Proof.
  split; [|split; [|split; [|split]]].
  - exists (field_text (lit "release") (lit "v1") ++ lit " "), (lit "blue"),
      (lit " " ++ field_text (lit "upstream_status") (lit "200") ++ lit " " ++
       field_text (lit "upstream_addr") (lit "10.0.0.1:80")).
    split; reflexivity.
  - exists [], (lit "v1"),
      (lit " " ++ field_text (lit "pool") (lit "blue") ++ lit " " ++
       field_text (lit "upstream_status") (lit "200") ++ lit " " ++
       field_text (lit "upstream_addr") (lit "10.0.0.1:80")).
    split; reflexivity.
  - exists (field_text (lit "release") (lit "v1") ++ lit " " ++
            field_text (lit "pool") (lit "blue") ++ lit " "), (lit "200"),
      (lit " " ++ field_text (lit "upstream_addr") (lit "10.0.0.1:80")).
    split; reflexivity.
  - exists (field_text (lit "release") (lit "v1") ++ lit " " ++
            field_text (lit "pool") (lit "blue") ++ lit " " ++
            field_text (lit "upstream_status") (lit "200") ++ lit " "),
      (lit "10.0.0.1:80"), [].
    split; reflexivity.
  - vm_compute. reflexivity.
Qed.

(** C1, amended: [parse_log_line] returns a record exactly for the lines that
    contain, somewhere, the text
    [pool="p" release="r" upstream_status="u" upstream_addr="a"]: the four
    fields in this order, one space between them, the values free of double
    quotes, any text before and after.  It returns [None] for every other
    line. *)
Theorem parse_log_line_matches_iff (n : nat) (line : str) :
  parse_log_line n line <> None <->
  exists pre p r u a post,
    quote_free p = true /\ quote_free r = true /\
    quote_free u = true /\ quote_free a = true /\
    line = pre ++ fields_text p r u a ++ post.
Proof.
  unfold parse_log_line. split.
  - destruct (Re.search LOG_PATTERN line) as [g|] eqn:E; [|congruence].
    intros _. apply search_Some in E. destruct E as (pre & suf & -> & _ & Hm).
    apply match_here_LOG_PATTERN in Hm.
    destruct Hm as (p & r & u & a & post & -> & Hp & Hr & Hu & Ha & _).
    exists pre, p, r, u, a, post. repeat split; assumption.
  - intros (pre & p & r & u & a & post & Hp & Hr & Hu & Ha & ->).
    pose proof (search_app pre (fields_text p r u a ++ post)) as Happ.
    rewrite (search_of_match _ _ (match_here_fields p r u a post Hp Hr Hu Ha)) in Happ.
    destruct (Re.search LOG_PATTERN (pre ++ fields_text p r u a ++ post));
      [discriminate|].
    exfalso. apply Happ; [discriminate|reflexivity].
Qed.

Lemma parse_log_line_matches_iff_witness :
  parse_log_line 4300 dash_line <> None.
Proof.
  apply (proj2 (parse_log_line_matches_iff 4300 dash_line)).
  exists (lit "GET / HTTP/1.1 "), (lit "-"), (lit "-"), (lit "-"), (lit "-"),
    (lit " request_time=0.002").
  repeat split; reflexivity.
Defined.

(** C10: where the leftmost match of the pattern holds the values [p], [r],
    [u] and [a], the record's [upstream_addr] is [a] itself, with no mapping
    of the sentinel, whereas [pool] and [release] are [p] and [r] with the
    sentinel [-] replaced by [unknown]. *)
Theorem upstream_addr_verbatim (n : nat) (pre p r u a post : str) :
  no_earlier_match pre (fields_text p r u a ++ post) = true ->
  quote_free p = true -> quote_free r = true ->
  quote_free u = true -> quote_free a = true ->
  exists rec,
    parse_log_line n (pre ++ fields_text p r u a ++ post) = Some rec /\
    upstream_addr rec = a /\
    pool rec = (if str_eqb p (lit "-") then lit "unknown" else p) /\
    release rec = (if str_eqb r (lit "-") then lit "unknown" else r).
Proof.
  intros Hn Hp Hr Hu Ha.
  rewrite (parse_log_line_fields n pre p r u a post Hn Hp Hr Hu Ha).
  eexists. split; [reflexivity|]. cbn [upstream_addr pool release].
  unfold unknown_if_dash.
  destruct (str_eqb p (lit "-")), (str_eqb r (lit "-")); repeat split.
Qed.

(** On a line whose four fields are all [-], the address stays [-] and the
    pool and the release become [unknown]. *)
Lemma upstream_addr_verbatim_witness :
  exists rec,
    parse_log_line 4300 dash_line = Some rec /\
    upstream_addr rec = lit "-" /\
    pool rec = lit "unknown" /\
    release rec = lit "unknown".
Proof.
  exact (upstream_addr_verbatim 4300 (lit "GET / HTTP/1.1 ")
           (lit "-") (lit "-") (lit "-") (lit "-") (lit " request_time=0.002")
           eq_refl eq_refl eq_refl eq_refl eq_refl).
Defined.



(** ** The error-rate window *)

(** C4: with capacity [WS], after the window has recorded [N >= WS] statuses
    that are all positive, it holds the last [WS] of them, in the order they
    came; a status that is 0 or negative leaves the window as it is; and
    after any statuses the window is the last [WS] of what it held followed
    by the positive ones. *)
Theorem error_window_holds_last (WS : nat) :
  (forall statuses st,
     length (request_window st) <= WS ->
     Forall (fun status => (0 < status)%Z) statuses ->
     WS <= length statuses ->
     request_window (state_after (record_statuses WS statuses) st)
     = skipn (length statuses - WS) statuses) /\
  (forall status st,
     (status <= 0)%Z ->
     request_window (state_after (track_request WS status) st)
     = request_window st) /\
  (forall statuses st,
     length (request_window st) <= WS ->
     request_window (state_after (record_statuses WS statuses) st)
     = last_n WS (request_window st ++ admitted statuses)).
Proof.
  split; [|split].
  - intros statuses st Hlen Hpos HN.
    rewrite (record_statuses_window WS statuses st Hlen).
    rewrite (admitted_all statuses Hpos).
    apply last_n_app_long. exact HN.
  - intros status st Hle. unfold state_after. rewrite track_request_eq.
    cbn [fst snd request_window].
    destruct (Z.ltb_spec 0 status); [lia|reflexivity].
  - intros statuses st Hlen. apply record_statuses_window. exact Hlen.
Qed.

Lemma error_window_holds_last_witness :
  request_window
    (state_after (record_statuses 3 [200; 503; 200; 404; 500]%Z) initial_state)
  = [200; 404; 500]%Z.
Proof.
  apply (proj1 (error_window_holds_last 3)
           [200; 503; 200; 404; 500]%Z initial_state).
  - simpl. lia.
  - repeat constructor.
  - simpl. lia.
Defined.

(** ** The error rate *)

(** C5: with fewer than 10 statuses in the window, whatever they are,
    [check_error_rate] computes no rate and does nothing; with [T >= 10]
    statuses of which [E] are 500 or more, the rate is the float
    [E / T * 100], and [check_error_rate] acts on this very rate: when it is
    above the threshold and the cooldown is over, the alert goes out and
    reports the rate, [E] and [T]; otherwise nothing happens. *)
Theorem rolling_error_rate (url : str) (thr : float) (ws : nat) (cd : Z) :
  (forall w st,
     length (request_window st) < 10 ->
     check_error_rate url thr ws cd w st = (Return tt, st, [])) /\
  (forall window,
     10 <= length window ->
     error_rate window
     = (float_of_int (Z.of_nat (errors_in window))
        / float_of_int (Z.of_nat (length window)) * 100)%float) /\
  (forall w st,
     10 <= length (request_window st) ->
     let E := Z.of_nat (errors_in (request_window st)) in
     let T := Z.of_nat (length (request_window st)) in
     let rate := (float_of_int E / float_of_int T * 100)%float in
     check_error_rate url thr ws cd w st
     = if (thr <? rate)%float
          && negb (float_lt_int (time_time w - last_error_alert st) cd)
       then (Return tt,
             {| last_pool := last_pool st;
                request_window := request_window st;
                last_failover_alert := last_failover_alert st;
                last_error_alert := time_time w |},
             slack_output url w (HighErrorRate rate thr E T ws) (lit "error")
             ++ [print_error_rate rate E T])
       else (Return tt, st, [])).
Proof.
  assert (Hrate : forall window,
             error_rate window
             = (float_of_int (Z.of_nat (errors_in window))
                / float_of_int (Z.of_nat (length window)) * 100)%float).
  { intros window. unfold error_rate, int_truediv.
    rewrite error_count_errors_in. reflexivity. }
  split; [|split].
  - intros w st H. rewrite check_error_rate_eq. cbv zeta.
    destruct (Nat.ltb_spec (length (request_window st)) 10); [reflexivity|lia].
  - intros window _. apply Hrate.
  - intros w st H E T rate. rewrite check_error_rate_eq. cbv zeta.
    destruct (Nat.ltb_spec (length (request_window st)) 10); [lia|].
    rewrite error_count_errors_in, Hrate. fold E T rate.
    destruct (thr <? rate)%float; [|reflexivity].
    destruct (float_lt_int (time_time w - last_error_alert st) cd); reflexivity.
Qed.

(** On the window of scenario B the alert goes out with the rate of 10 out
    of 11, also when the channel refuses it; on nine statuses nothing
    happens. *)
Lemma rolling_error_rate_witness :
  error_rate scenario_B_window = (10 / 11 * 100)%float /\
  check_error_rate (lit "https://hooks.example/T") 2 200 300
    {| time_time := 1762200000; requests_post := Raises Timeout |}
    {| last_pool := None;
       request_window := repeat 503%Z 9;
       last_failover_alert := 0;
       last_error_alert := 0 |}
  = (Return tt,
     {| last_pool := None;
        request_window := repeat 503%Z 9;
        last_failover_alert := 0;
        last_error_alert := 0 |}, []) /\
  check_error_rate (lit "https://hooks.example/T") 2 200 300
    (world_2025 (Response 200 (lit "ok")))
    {| last_pool := Some (lit "blue");
       request_window := scenario_B_window;
       last_failover_alert := 0;
       last_error_alert := 0 |}
  = (Return tt,
     {| last_pool := Some (lit "blue");
        request_window := scenario_B_window;
        last_failover_alert := 0;
        last_error_alert := 1762200000 |},
     [post (lit "https://hooks.example/T") siren
        (HighErrorRate (10 / 11 * 100) 2 10 11 200);
      print_alert_sent (lit "error");
      print_error_rate (10 / 11 * 100) 10 11]).
Proof.
  destruct (rolling_error_rate (lit "https://hooks.example/T") 2 200 300)
    as (Hfew & Hrate & Hact).
  split; [|split].
  - rewrite (Hrate scenario_B_window); [reflexivity|simpl; lia].
  - apply Hfew. simpl. lia.
  - rewrite Hact; [reflexivity|simpl; lia].
Defined.

(** The rate is the float the expression gives, each operation rounded:
    with 29 statuses out of 100 at 500 or more it is not the float 29. *)
Example error_rate_29_of_100 :
  error_rate (repeat 503%Z 29 ++ repeat 200%Z 71) = (29 / 100 * 100)%float /\
  (error_rate (repeat 503%Z 29 ++ repeat 200%Z 71) =? 29)%float = false /\
  (error_rate (repeat 503%Z 29 ++ repeat 200%Z 71) <? 29)%float = true.
Proof. split; [|split]; vm_compute; reflexivity. Qed.

(** ** The cooldown gate *)

(** C2, counterexample: from the initial state, where no failover alert has
    ever fired, with the default cooldown of 300 seconds and a clock that
    reads 100, the first failover (blue to green) is held back by the
    cooldown: nothing is sent, the process only prints that it is in
    cooldown.  The same happens with a clock at a date of 2025 and a
    cooldown of 2000000000 seconds. *)
Lemma first_failover_held_back :
  last_failover_alert initial_state = 0%float /\
  observe_pools (lit "https://hooks.example/T") 300
    [(early_world, lit "blue"); (early_world, lit "green")] initial_state
  = (Return tt,
     {| last_pool := Some (lit "green");
        request_window := [];
        last_failover_alert := 0;
        last_error_alert := 0 |},
     [print_initial_pool (lit "blue"); print_in_cooldown 100]) /\
  alert_attempted
    (output_of
       (observe_pools (lit "https://hooks.example/T") 300
          [(early_world, lit "blue"); (early_world, lit "green")])
       initial_state) = false /\
  alert_attempted
    (output_of
       (observe_pools (lit "https://hooks.example/T") 2000000000
          [(world_2025 (Response 200 (lit "ok")), lit "blue");
           (world_2025 (Response 200 (lit "ok")), lit "green")])
       initial_state) = false.
Proof. split; [|split; [|split]]; vm_compute; reflexivity. Qed.

(** C2, amended: once an anomaly of a kind is identified (a change of pool;
    a rate above the threshold on at least 10 statuses), its alert is
    attempted exactly when [now - last_alert < cooldown] is false, and so
    whenever [now - last_alert >= cooldown]; [last_alert] of a kind is 0
    until the kind fires, so a kind that has never fired is permitted to
    fire when [now - 0 >= cooldown], and not for every [now]. *)
Theorem cooldown_gate (url : str) (thr : float) (ws : nat) (cd : Z) :
  (forall w pool previous st,
     last_pool st = Some previous ->
     str_eqb pool previous = false ->
     alert_attempted (output_of (check_failover url cd w pool) st)
     = negb (float_lt_int (time_time w - last_failover_alert st) cd)) /\
  (forall w st,
     10 <= length (request_window st) ->
     (thr <? error_rate (request_window st))%float = true ->
     alert_attempted (output_of (check_error_rate url thr ws cd w) st)
     = negb (float_lt_int (time_time w - last_error_alert st) cd)) /\
  (forall x, float_ge_int x cd = true -> float_lt_int x cd = false) /\
  last_failover_alert initial_state = 0%float /\
  last_error_alert initial_state = 0%float.
Proof.
  split; [|split; [|split; [|split]]]; try reflexivity.
  - intros w pool previous st Hlast Hne.
    unfold output_of. rewrite check_failover_eq, Hlast, Hne.
    destruct (float_lt_int (time_time w - last_failover_alert st) cd);
      [reflexivity|].
    cbn [snd negb]. rewrite alert_attempted_app, slack_output_attempted.
    reflexivity.
  - intros w st Hlen Hrate.
    unfold output_of. rewrite check_error_rate_eq. cbv zeta. rewrite Hrate.
    destruct (Nat.ltb_spec (length (request_window st)) 10); [lia|].
    destruct (float_lt_int (time_time w - last_error_alert st) cd);
      [reflexivity|].
    cbn [snd negb]. rewrite alert_attempted_app, slack_output_attempted.
    reflexivity.
  - intros x. apply float_ge_not_lt.
Qed.

Lemma cooldown_gate_witness :
  alert_attempted
    (output_of (check_failover (lit "https://hooks.example/T") 300
                  (world_2025 (Response 200 (lit "ok"))) (lit "green"))
       blue_state) = true /\
  alert_attempted
    (output_of (check_failover (lit "https://hooks.example/T") 300
                  early_world (lit "green"))
       blue_state) = false.
Proof.
  destruct (cooldown_gate (lit "https://hooks.example/T") 2 200 300)
    as (Hfailover & _).
  split.
  - exact (Hfailover (world_2025 (Response 200 (lit "ok"))) (lit "green")
             (lit "blue") blue_state eq_refl eq_refl).
  - exact (Hfailover early_world (lit "green") (lit "blue") blue_state
             eq_refl eq_refl).
Defined.

(** ** The failover detector *)

Lemma check_failover_last_pool (url : str) (cd : Z) (w : world) (pool : str)
      (st : State) :
  exists st' out,
    check_failover url cd w pool st = (Return tt, st', out) /\
    last_pool st' = Some pool.
Proof.
  rewrite check_failover_eq.
  destruct (last_pool st) as [previous|] eqn:Hlast.
  - destruct (str_eqb pool previous) eqn:E.
    + apply str_eqb_eq in E. subst previous. eauto.
    + destruct (float_lt_int (time_time w - last_failover_alert st) cd);
        eexists; eexists; split; reflexivity.
  - eexists; eexists; split; reflexivity.
Qed.

Lemma observe_pools_app (url : str) (cd : Z) (obs : list (world * str))
      (w : world) (pool : str) (st : State) :
  exists st1 out1,
    observe_pools url cd obs st = (Return tt, st1, out1) /\
    observe_pools url cd (obs ++ [(w, pool)]) st
    = (Return tt, state_after (check_failover url cd w pool) st1,
       out1 ++ output_of (check_failover url cd w pool) st1).
Proof.
  revert st. induction obs as [|[w0 p0] obs IH]; intros st.
  - exists st, []. split; [reflexivity|].
    cbn [app observe_pools]. unfold bind, state_after, output_of.
    destruct (check_failover_last_pool url cd w pool st) as (st' & out & E & _).
    rewrite E. cbn. rewrite app_nil_r. reflexivity.
  - destruct (check_failover_last_pool url cd w0 p0 st) as (st' & out & E & _).
    destruct (IH st') as (st1 & out1 & E1 & E2).
    exists st1, (out ++ out1). cbn [app observe_pools]. unfold bind.
    rewrite E, E1. split; [reflexivity|].
    rewrite E2, app_assoc. reflexivity.
Qed.

Lemma check_error_rate_last_pool (url : str) (thr : float) (ws : nat) (cd : Z)
      (w : world) (st : State) :
  exists st' out,
    check_error_rate url thr ws cd w st = (Return tt, st', out) /\
    last_pool st' = last_pool st.
Proof.
  rewrite check_error_rate_eq. cbv zeta.
  destruct (length (request_window st) <? 10); [eauto|].
  destruct (thr <? error_rate (request_window st))%float; [|eauto].
  destruct (float_lt_int (time_time w - last_error_alert st) cd); eauto.
Qed.

(** The recorded pool after one line of the loop whose record is [data]. *)
Lemma process_line_last_pool (url : str) (thr : float) (ws : nat) (cd : Z)
      (n : nat) (wf we : world) (line : str) (data : LogRecord) (st : State) :
  str_eqb (Py.strip line) [] = false ->
  parse_log_line n (Py.strip line) = Some data ->
  last_pool (state_after (process_line url thr ws cd n wf we line) st)
  = if negb (str_eqb (pool data) []) && negb (str_eqb (pool data) (lit "unknown"))
    then Some (pool data)
    else last_pool st.
Proof.
  intros Hline Hparse. unfold state_after, process_line.
  rewrite Hline, Hparse. unfold bind at 1. rewrite track_request_eq.
  set (st1 := {| last_pool := last_pool st;
                 request_window := _;
                 last_failover_alert := last_failover_alert st;
                 last_error_alert := last_error_alert st |}).
  unfold bind.
  destruct (negb (str_eqb (pool data) []) &&
            negb (str_eqb (pool data) (lit "unknown"))).
  - destruct (check_failover_last_pool url cd wf (pool data) st1)
      as (st2 & out2 & E2 & Hp2).
    rewrite E2.
    destruct (check_error_rate_last_pool url thr ws cd we st2)
      as (st3 & out3 & E3 & Hp3).
    rewrite E3. cbn [fst snd]. congruence.
  - unfold ret.
    destruct (check_error_rate_last_pool url thr ws cd we st1)
      as (st3 & out3 & E3 & Hp3).
    rewrite E3. cbn [fst snd]. exact Hp3.
Qed.

(** C3: after [check_failover] has observed a sequence of pools, the
    recorded pool is the last one observed, whatever the clock read and the
    channel answered; where the cooldown holds an alert back, the recorded
    pool still becomes the new pool; and in the loop, a line whose record
    has a known pool leaves that pool recorded. *)
Theorem recorded_pool_is_latest (url : str) (cd : Z) :
  (forall obs w pool st,
     last_pool (state_after (observe_pools url cd (obs ++ [(w, pool)])) st)
     = Some pool) /\
  (forall w pool previous st,
     last_pool st = Some previous ->
     str_eqb pool previous = false ->
     float_lt_int (time_time w - last_failover_alert st) cd = true ->
     alert_attempted (output_of (check_failover url cd w pool) st) = false /\
     last_pool (state_after (check_failover url cd w pool) st) = Some pool) /\
  (forall thr ws n wf we line data st,
     str_eqb (Py.strip line) [] = false ->
     parse_log_line n (Py.strip line) = Some data ->
     str_eqb (pool data) [] = false ->
     str_eqb (pool data) (lit "unknown") = false ->
     last_pool (state_after (process_line url thr ws cd n wf we line) st)
     = Some (pool data)).
Proof.
  split; [|split].
  - intros obs w pool st.
    destruct (observe_pools_app url cd obs w pool st) as (st1 & out1 & _ & H).
    unfold state_after at 1. rewrite H. cbn [fst snd].
    destruct (check_failover_last_pool url cd w pool st1) as (st' & out & E & Hp).
    unfold state_after. rewrite E. exact Hp.
  - intros w pool previous st Hlast Hne Hcool.
    unfold output_of, state_after.
    rewrite check_failover_eq, Hlast, Hne, Hcool. split; reflexivity.
  - intros thr ws n wf we line data st Hline Hparse Hne Hknown.
    rewrite (process_line_last_pool url thr ws cd n wf we line data st Hline Hparse).
    rewrite Hne, Hknown. reflexivity.
Qed.

(** Scenario D of the specification: blue, then green, then blue again one
    second later, with a cooldown of 300 seconds.  The second alert is held
    back and the recorded pool is blue; the same holds when the third pool
    comes in a line of the log. *)
Lemma recorded_pool_is_latest_witness :
  last_pool
    (state_after
       (observe_pools (lit "https://hooks.example/T") 300
          ([(world_2025 (Response 200 (lit "ok")), lit "blue");
            (world_2025 (Response 200 (lit "ok")), lit "green")]
           ++ [({| time_time := 1762200001;
                   requests_post := Response 200 (lit "ok") |}, lit "blue")]))
       initial_state)
  = Some (lit "blue") /\
  alert_attempted
    (output_of
       (check_failover (lit "https://hooks.example/T") 300
          {| time_time := 1762200001;
             requests_post := Response 200 (lit "ok") |} (lit "blue"))
       green_state) = false /\
  last_pool
    (state_after
       (process_line (lit "https://hooks.example/T") 2 200 300 4300
          {| time_time := 1762200001;
             requests_post := Response 200 (lit "ok") |}
          {| time_time := 1762200001;
             requests_post := Response 200 (lit "ok") |}
          (access_line "blue" "200"))
       green_state)
  = Some (lit "blue").
Proof.
  destruct (recorded_pool_is_latest (lit "https://hooks.example/T") 300)
    as (Hseq & Hheld & Hline).
  split; [|split].
  - apply Hseq.
  - apply (Hheld _ (lit "blue") (lit "green")); reflexivity.
  - apply (Hline 2%float 200 4300 _ _ (access_line "blue" "200")
             {| pool := lit "blue";
                release := lit "v1.0.3";
                upstream_status := 200;
                upstream_addr := lit "172.18.0.3:3000" |});
      reflexivity.
Defined.

(** ** The notifier *)

(** C6, counterexample: the channel answers 204, a status of the 200 range,
    and [send_slack_alert] returns [False]. *)
Lemma send_slack_alert_204_is_failure :
  send_slack_alert (lit "https://hooks.example/T")
    (world_2025 (Response 204 []))
    (FailoverDetected (lit "blue") (lit "green")) (lit "failover") initial_state
  = (Return false, initial_state,
     [post (lit "https://hooks.example/T") arrows
        (FailoverDetected (lit "blue") (lit "green"));
      print_alert_failed 204;
      print_response []]).
Proof. vm_compute. reflexivity. Qed.

(** C6, amended: [send_slack_alert] returns [True] exactly when a webhook is
    configured and the POST is answered, within the timeout, with the status
    200 itself; in every other case it returns [False]. *)
Theorem send_slack_alert_true_iff (url : str) (w : world)
        (message : alert_message) (alert_type : str) (st : State) :
  (result_of (send_slack_alert url w message alert_type) st = Return true <->
   url <> [] /\ exists text, requests_post w = Response 200 text) /\
  (result_of (send_slack_alert url w message alert_type) st <> Return true ->
   result_of (send_slack_alert url w message alert_type) st = Return false).
Proof.
  unfold result_of. rewrite send_slack_alert_eq. cbn [fst]. unfold delivered.
  split.
  - split.
    + intros H. injection H as H. apply andb_true_iff in H.
      destruct H as [Hurl Hpost]. split.
      * apply negb_true_iff, str_eqb_neq in Hurl. exact Hurl.
      * destruct (requests_post w) as [status_code text|e]; [|discriminate].
        apply Z.eqb_eq in Hpost. subst status_code. exists text. reflexivity.
    + intros [Hurl [text Hpost]]. rewrite Hpost.
      apply str_eqb_neq in Hurl. rewrite Hurl. reflexivity.
  - destruct (negb (str_eqb url []) &&
              match requests_post w with
              | Response status_code _ => (status_code =? 200)%Z
              | Raises _ => false
              end); [congruence|reflexivity].
Qed.

Lemma send_slack_alert_true_iff_witness :
  result_of
    (send_slack_alert (lit "https://hooks.example/T")
       (world_2025 (Response 200 (lit "ok")))
       (FailoverDetected (lit "blue") (lit "green")) (lit "failover"))
    initial_state = Return true.
Proof.
  apply (proj2 (proj1 (send_slack_alert_true_iff
                         (lit "https://hooks.example/T")
                         (world_2025 (Response 200 (lit "ok")))
                         (FailoverDetected (lit "blue") (lit "green"))
                         (lit "failover") initial_state))).
  split; [discriminate|]. exists (lit "ok"). reflexivity.
Defined.

(** C8: [send_slack_alert] returns and never raises, and leaves the globals
    alone.  Without a webhook it prints the alert and returns [False]; with
    one, an exception of the POST (a timeout, a connection error) is printed
    and the result is [False], and so is an answer whose status is not 200. *)
Theorem send_slack_alert_never_raises (url : str) (w : world)
        (message : alert_message) (alert_type : str) (st : State) :
  (exists b, result_of (send_slack_alert url w message alert_type) st = Return b) /\
  state_after (send_slack_alert url w message alert_type) st = st /\
  (url = [] ->
   send_slack_alert url w message alert_type st
   = (Return false, st, [print_no_webhook message])) /\
  (url <> [] -> forall e,
   requests_post w = Raises e ->
   send_slack_alert url w message alert_type st
   = (Return false, st,
      [post url (emoji_of alert_type) message; print_alert_error e])) /\
  (url <> [] -> forall status_code text,
   requests_post w = Response status_code text ->
   status_code <> 200%Z ->
   send_slack_alert url w message alert_type st
   = (Return false, st,
      [post url (emoji_of alert_type) message;
       print_alert_failed status_code;
       print_response (firstn 100 text)])).
Proof.
  unfold result_of, state_after. rewrite send_slack_alert_eq. cbn [fst snd].
  unfold delivered, slack_output.
  split; [eexists; reflexivity|]. split; [reflexivity|].
  split; [|split].
  - intros ->. reflexivity.
  - intros Hurl e Hpost. apply str_eqb_neq in Hurl.
    rewrite Hurl, Hpost. reflexivity.
  - intros Hurl status_code text Hpost Hne. apply str_eqb_neq in Hurl.
    apply Z.eqb_neq in Hne. rewrite Hurl, Hpost, Hne. reflexivity.
Qed.

Lemma send_slack_alert_never_raises_witness :
  send_slack_alert [] (world_2025 (Response 200 (lit "ok")))
    (FailoverDetected (lit "blue") (lit "green")) (lit "failover") initial_state
  = (Return false, initial_state,
     [print_no_webhook (FailoverDetected (lit "blue") (lit "green"))]) /\
  send_slack_alert (lit "https://hooks.example/T") (world_2025 (Raises Timeout))
    (FailoverDetected (lit "blue") (lit "green")) (lit "failover") initial_state
  = (Return false, initial_state,
     [post (lit "https://hooks.example/T") arrows
        (FailoverDetected (lit "blue") (lit "green"));
      print_alert_error Timeout]).
Proof.
  split.
  - apply (proj1 (proj2 (proj2 (send_slack_alert_never_raises []
             (world_2025 (Response 200 (lit "ok")))
             (FailoverDetected (lit "blue") (lit "green")) (lit "failover")
             initial_state)))).
    reflexivity.
  - apply (proj1 (proj2 (proj2 (proj2 (send_slack_alert_never_raises
             (lit "https://hooks.example/T") (world_2025 (Raises Timeout))
             (FailoverDetected (lit "blue") (lit "green")) (lit "failover")
             initial_state))))).
    + discriminate.
    + reflexivity.
Defined.

(** C7: when the alert of a kind fires, the timestamp of the kind becomes
    the reading of the clock, whatever the channel answers: a raised
    exception, a refusal or a missing webhook change nothing to it. *)
Theorem cooldown_timestamp_set_on_firing (url : str) (thr : float) (ws : nat)
        (cd : Z) :
  (forall w pool previous st,
     last_pool st = Some previous ->
     str_eqb pool previous = false ->
     float_lt_int (time_time w - last_failover_alert st) cd = false ->
     alert_attempted (output_of (check_failover url cd w pool) st) = true /\
     last_failover_alert (state_after (check_failover url cd w pool) st)
     = time_time w) /\
  (forall w st,
     10 <= length (request_window st) ->
     (thr <? error_rate (request_window st))%float = true ->
     float_lt_int (time_time w - last_error_alert st) cd = false ->
     alert_attempted (output_of (check_error_rate url thr ws cd w) st) = true /\
     last_error_alert (state_after (check_error_rate url thr ws cd w) st)
     = time_time w) /\
  (forall w pool st,
     alert_attempted (output_of (check_failover url cd w pool) st) = true ->
     last_failover_alert (state_after (check_failover url cd w pool) st)
     = time_time w) /\
  (forall w st,
     alert_attempted (output_of (check_error_rate url thr ws cd w) st) = true ->
     last_error_alert (state_after (check_error_rate url thr ws cd w) st)
     = time_time w).
Proof.
  split; [|split; [|split]].
  - intros w pool previous st Hlast Hne Hcool.
    unfold output_of, state_after.
    rewrite check_failover_eq, Hlast, Hne, Hcool. cbn [fst snd].
    rewrite alert_attempted_app, slack_output_attempted. split; reflexivity.
  - intros w st Hlen Hrate Hcool.
    unfold output_of, state_after.
    rewrite check_error_rate_eq. cbv zeta. rewrite Hrate, Hcool.
    destruct (Nat.ltb_spec (length (request_window st)) 10); [lia|].
    cbn [fst snd].
    rewrite alert_attempted_app, slack_output_attempted. split; reflexivity.
  - intros w pool st. unfold output_of, state_after.
    rewrite check_failover_eq.
    destruct (last_pool st) as [previous|]; [|discriminate].
    destruct (str_eqb pool previous); [discriminate|].
    destruct (float_lt_int (time_time w - last_failover_alert st) cd);
      [discriminate|reflexivity].
  - intros w st. unfold output_of, state_after.
    rewrite check_error_rate_eq. cbv zeta.
    destruct (length (request_window st) <? 10); [discriminate|].
    destruct (thr <? error_rate (request_window st))%float; [|discriminate].
    destruct (float_lt_int (time_time w - last_error_alert st) cd);
      [discriminate|reflexivity].
Qed.

(** The failover alert meets a timeout, the error-rate alert a refusal: both
    timestamps are set to the reading of the clock. *)
Lemma cooldown_timestamp_set_on_firing_witness :
  last_failover_alert
    (state_after
       (check_failover (lit "https://hooks.example/T") 300
          (world_2025 (Raises Timeout)) (lit "green")) blue_state)
  = 1762200000%float /\
  last_error_alert
    (state_after
       (check_error_rate (lit "https://hooks.example/T") 2 200 300
          (world_2025 (Response 500 (lit "server error"))))
       {| last_pool := Some (lit "blue");
          request_window := scenario_B_window;
          last_failover_alert := 0;
          last_error_alert := 0 |})
  = 1762200000%float.
Proof.
  destruct (cooldown_timestamp_set_on_firing
              (lit "https://hooks.example/T") 2 200 300)
    as (Hfailover & Herror & _).
  split.
  - apply (Hfailover (world_2025 (Raises Timeout)) (lit "green") (lit "blue")
             blue_state); reflexivity.
  - apply (Herror (world_2025 (Response 500 (lit "server error")))
             {| last_pool := Some (lit "blue");
                request_window := scenario_B_window;
                last_failover_alert := 0;
                last_error_alert := 0 |}).
    + simpl. lia.
    + reflexivity.
    + reflexivity.
Defined.

(** ** Runs of the whole loop *)

(** Scenario A of the specification: blue, blue, green gives one failover
    alert, from blue to green. *)
Example scenario_A_one_failover :
  output_of
    (tail_log_file (lit "https://hooks.example/T") 2 200 300 4300
       [read_at 1762200000 (access_line "blue" "200");
        read_at 1762200001 (access_line "blue" "200");
        read_at 1762200002 (access_line "green" "200")])
    initial_state
  = [print_initial_pool (lit "blue");
     post (lit "https://hooks.example/T") arrows
       (FailoverDetected (lit "blue") (lit "green"));
     print_alert_sent (lit "failover");
     print_failover (lit "blue") (lit "green")].
Proof. vm_compute. reflexivity. Qed.

(** Scenario B of the specification: ten lines with status 503 and one with
    status 200.  The alert goes out at the tenth line, with a rate of 100,
    and the eleventh line, inside the cooldown, sends nothing more. *)
Example scenario_B_one_error_alert :
  tail_log_file (lit "https://hooks.example/T") 2 200 300 4300
    (repeat (read_at 1762200000 (access_line "blue" "503")) 10
     ++ [read_at 1762200001 (access_line "blue" "200")])
    initial_state
  = (Return tt,
     {| last_pool := Some (lit "blue");
        request_window := scenario_B_window;
        last_failover_alert := 0;
        last_error_alert := 1762200000 |},
     [print_initial_pool (lit "blue");
      post (lit "https://hooks.example/T") siren
        (HighErrorRate 100 2 10 10 200);
      print_alert_sent (lit "error");
      print_error_rate 100 10 10]).
Proof. vm_compute. reflexivity. Qed.

(** A line the pattern does not match, an empty line and a line whose pool
    is the sentinel leave the detector alone; the status of the last one is
    still recorded. *)
Example unparsed_and_unknown_lines :
  tail_log_file (lit "https://hooks.example/T") 2 200 300 4300
    [read_at 1762200000 (lit "GET /healthz 200");
     read_at 1762200000 (lit "   ");
     read_at 1762200000 (access_line "-" "502, 200")]
    initial_state
  = (Return tt,
     {| last_pool := None;
        request_window := [200%Z];
        last_failover_alert := 0;
        last_error_alert := 0 |},
     []).
Proof. vm_compute. reflexivity. Qed.

(** * Further properties of the watcher *)

(** ** What each check leaves alone *)

Lemma check_failover_frame (url : str) (cd : Z) (w : world) (pool : str)
      (st : State) :
  exists st' out,
    check_failover url cd w pool st = (Return tt, st', out) /\
    last_pool st' = Some pool /\
    request_window st' = request_window st /\
    last_error_alert st' = last_error_alert st.
Proof.
  rewrite check_failover_eq.
  destruct (last_pool st) as [previous|] eqn:Hlast.
  - destruct (str_eqb pool previous) eqn:E.
    + apply str_eqb_eq in E. subst previous. eauto 6.
    + destruct (float_lt_int (time_time w - last_failover_alert st) cd);
        eexists; eexists; repeat split; reflexivity.
  - eexists; eexists; repeat split; reflexivity.
Qed.

Lemma check_error_rate_frame (url : str) (thr : float) (ws : nat) (cd : Z)
      (w : world) (st : State) :
  exists st' out,
    check_error_rate url thr ws cd w st = (Return tt, st', out) /\
    last_pool st' = last_pool st /\
    request_window st' = request_window st /\
    last_failover_alert st' = last_failover_alert st.
Proof.
  rewrite check_error_rate_eq. cbv zeta.
  destruct (length (request_window st) <? 10); [eauto 7|].
  destruct (thr <? error_rate (request_window st))%float; [|eauto 7].
  destruct (float_lt_int (time_time w - last_error_alert st) cd); eauto 7.
Qed.

(** X3: the two alert kinds keep separate books.  [check_failover] never
    touches the window or the error-rate timestamp, and [check_error_rate]
    never touches the recorded pool, the window or the failover timestamp. *)
Theorem alert_kinds_keep_separate_books (url : str) (thr : float) (ws : nat)
        (cd : Z) (w : world) (st : State) :
  (forall pool,
     request_window (state_after (check_failover url cd w pool) st)
     = request_window st /\
     last_error_alert (state_after (check_failover url cd w pool) st)
     = last_error_alert st) /\
  last_pool (state_after (check_error_rate url thr ws cd w) st) = last_pool st /\
  request_window (state_after (check_error_rate url thr ws cd w) st)
  = request_window st /\
  last_failover_alert (state_after (check_error_rate url thr ws cd w) st)
  = last_failover_alert st.
Proof.
  split.
  - intros pool.
    destruct (check_failover_frame url cd w pool st) as (st' & out & E & _ & Hw & He).
    unfold state_after. rewrite E. split; assumption.
  - destruct (check_error_rate_frame url thr ws cd w st)
      as (st' & out & E & Hp & Hw & Hf).
    unfold state_after. rewrite E. repeat split; assumption.
Qed.

(** ** When an alert goes out *)

(** X1: [check_failover] attempts an alert only when a pool is already
    recorded, the observed pool differs from it and the cooldown is over; the
    alert then names the recorded pool as the previous one.  The first
    observation and a repeated pool attempt nothing and leave both
    timestamps as they are. *)
Theorem failover_alert_needs_a_change (url : str) (cd : Z) (w : world)
        (pool : str) (st : State) :
  (alert_attempted (output_of (check_failover url cd w pool) st) = true ->
   exists previous,
     last_pool st = Some previous /\ pool <> previous /\
     float_lt_int (time_time w - last_failover_alert st) cd = false /\
     output_of (check_failover url cd w pool) st
     = slack_output url w (FailoverDetected previous pool) (lit "failover")
       ++ [print_failover previous pool]) /\
  (last_pool st = None \/ last_pool st = Some pool ->
   alert_attempted (output_of (check_failover url cd w pool) st) = false /\
   last_failover_alert (state_after (check_failover url cd w pool) st)
   = last_failover_alert st).
Proof.
  unfold output_of, state_after. rewrite check_failover_eq. split.
  - destruct (last_pool st) as [previous|]; [|discriminate].
    destruct (str_eqb pool previous) eqn:E; [discriminate|].
    destruct (float_lt_int (time_time w - last_failover_alert st) cd);
      [discriminate|].
    intros _. exists previous. apply str_eqb_neq in E. repeat split. exact E.
  - intros [H|H]; rewrite H; [split; reflexivity|].
    rewrite (proj2 (str_eqb_eq pool pool) eq_refl). split; reflexivity.
Qed.

Lemma failover_alert_needs_a_change_witness :
  alert_attempted
    (output_of (check_failover (lit "https://hooks.example/T") 300
                  (world_2025 (Raises ConnectionError)) (lit "blue"))
       blue_state) = false /\
  last_failover_alert
    (state_after (check_failover (lit "https://hooks.example/T") 300
                    (world_2025 (Raises ConnectionError)) (lit "blue"))
       blue_state) = 0%float.
Proof.
  apply (proj2 (failover_alert_needs_a_change (lit "https://hooks.example/T")
                  300 (world_2025 (Raises ConnectionError)) (lit "blue")
                  blue_state)).
  right. reflexivity.
Defined.

(** X4: [check_error_rate] attempts an alert only when the window holds at
    least 10 statuses, the rate is strictly above the threshold and the
    cooldown is over; in every other case it does nothing at all. *)
Theorem error_alert_needs_rate_above_threshold (url : str) (thr : float)
        (ws : nat) (cd : Z) (w : world) (st : State) :
  (alert_attempted (output_of (check_error_rate url thr ws cd w) st) = true ->
   10 <= length (request_window st) /\
   (thr <? error_rate (request_window st))%float = true /\
   float_lt_int (time_time w - last_error_alert st) cd = false) /\
  (alert_attempted (output_of (check_error_rate url thr ws cd w) st) = false ->
   check_error_rate url thr ws cd w st = (Return tt, st, [])).
Proof.
  unfold output_of. rewrite check_error_rate_eq. cbv zeta.
  destruct (Nat.ltb_spec (length (request_window st)) 10) as [Hlt|Hge].
  { split; [discriminate|reflexivity]. }
  destruct (thr <? error_rate (request_window st))%float.
  2:{ split; [discriminate|reflexivity]. }
  destruct (float_lt_int (time_time w - last_error_alert st) cd).
  { split; [discriminate|reflexivity]. }
  split; [intros _; repeat split; exact Hge|].
  cbn [snd]. rewrite alert_attempted_app, slack_output_attempted. discriminate.
Qed.

Lemma error_alert_needs_rate_above_threshold_witness :
  check_error_rate (lit "https://hooks.example/T") 100 200 300
    (world_2025 (Response 200 (lit "ok")))
    {| last_pool := Some (lit "blue");
       request_window := repeat 503%Z 12;
       last_failover_alert := 0;
       last_error_alert := 0 |}
  = (Return tt,
     {| last_pool := Some (lit "blue");
        request_window := repeat 503%Z 12;
        last_failover_alert := 0;
        last_error_alert := 0 |}, []).
Proof.
  apply (proj2 (error_alert_needs_rate_above_threshold
                  (lit "https://hooks.example/T") 100 200 300
                  (world_2025 (Response 200 (lit "ok")))
                  {| last_pool := Some (lit "blue");
                     request_window := repeat 503%Z 12;
                     last_failover_alert := 0;
                     last_error_alert := 0 |})).
  vm_compute. reflexivity.
Defined.

(** X2: one failover alert per cooldown, counted from the alert that went
    out.  After an alert at [t1], a further change of pool at [t2] with
    [t2 - t1 < cooldown] attempts nothing and leaves the timestamp at [t1]:
    a held-back failover does not extend the cooldown, and the recorded pool
    still follows. *)
Theorem held_back_failover_keeps_timestamp (url : str) (cd : Z)
        (w1 w2 : world) (p1 p2 previous : str) (st : State) :
  last_pool st = Some previous ->
  str_eqb p1 previous = false ->
  str_eqb p2 p1 = false ->
  float_lt_int (time_time w1 - last_failover_alert st) cd = false ->
  float_lt_int (time_time w2 - time_time w1) cd = true ->
  let st1 := state_after (check_failover url cd w1 p1) st in
  alert_attempted (output_of (check_failover url cd w1 p1) st) = true /\
  alert_attempted (output_of (check_failover url cd w2 p2) st1) = false /\
  last_failover_alert (state_after (check_failover url cd w2 p2) st1)
  = time_time w1 /\
  last_pool (state_after (check_failover url cd w2 p2) st1) = Some p2.
Proof.
  intros Hlast H1 H2 Hfire Hheld st1. subst st1.
  unfold output_of, state_after.
  rewrite (check_failover_eq url cd w1 p1 st), Hlast, H1, Hfire. cbn [fst snd].
  rewrite check_failover_eq. cbn [last_pool last_failover_alert].
  rewrite H2, Hheld. cbn [fst snd last_pool last_failover_alert].
  rewrite alert_attempted_app, slack_output_attempted. repeat split.
Qed.

Lemma held_back_failover_keeps_timestamp_witness :
  last_failover_alert
    (state_after
       (check_failover (lit "https://hooks.example/T") 300
          {| time_time := 1762200299; requests_post := Raises Timeout |}
          (lit "blue"))
       (state_after
          (check_failover (lit "https://hooks.example/T") 300
             (world_2025 (Raises Timeout)) (lit "green")) blue_state))
  = 1762200000%float.
Proof.
  apply (held_back_failover_keeps_timestamp (lit "https://hooks.example/T") 300
           (world_2025 (Raises Timeout))
           {| time_time := 1762200299; requests_post := Raises Timeout |}
           (lit "green") (lit "blue") (lit "blue") blue_state);
    reflexivity.
Defined.

(** X5: after an error-rate alert at [t1], [check_error_rate] at [t2] with
    [t2 - t1 < cooldown] does nothing, whatever the window has become in
    between: no output, no change of state. *)
Theorem error_alert_once_per_cooldown (url : str) (thr : float) (ws : nat)
        (cd : Z) (w1 w2 : world) (st : State) (window : list Z) :
  alert_attempted (output_of (check_error_rate url thr ws cd w1) st) = true ->
  float_lt_int (time_time w2 - time_time w1) cd = true ->
  let st1 := state_after (check_error_rate url thr ws cd w1) st in
  let st2 := {| last_pool := last_pool st1;
                request_window := window;
                last_failover_alert := last_failover_alert st1;
                last_error_alert := last_error_alert st1 |} in
  last_error_alert st1 = time_time w1 /\
  check_error_rate url thr ws cd w2 st2 = (Return tt, st2, []).
Proof.
  intros Hfired Hheld st1 st2.
  assert (Ht : last_error_alert st1 = time_time w1).
  { subst st1. revert Hfired. unfold output_of, state_after.
    rewrite check_error_rate_eq. cbv zeta.
    destruct (length (request_window st) <? 10); [discriminate|].
    destruct (thr <? error_rate (request_window st))%float; [|discriminate].
    destruct (float_lt_int (time_time w1 - last_error_alert st) cd);
      [discriminate|reflexivity]. }
  split; [exact Ht|].
  rewrite check_error_rate_eq. cbv zeta.
  destruct (length (request_window st2) <? 10); [reflexivity|].
  destruct (thr <? error_rate (request_window st2))%float; [|reflexivity].
  replace (last_error_alert st2) with (time_time w1) by (symmetry; exact Ht).
  rewrite Hheld. reflexivity.
Qed.

Lemma error_alert_once_per_cooldown_witness :
  check_error_rate (lit "https://hooks.example/T") 2 200 300
    {| time_time := 1762200299; requests_post := Response 200 (lit "ok") |}
    {| last_pool := None;
       request_window := repeat 500%Z 200;
       last_failover_alert := 0;
       last_error_alert := 1762200000 |}
  = (Return tt,
     {| last_pool := None;
        request_window := repeat 500%Z 200;
        last_failover_alert := 0;
        last_error_alert := 1762200000 |}, []).
Proof.
  apply (proj2 (error_alert_once_per_cooldown (lit "https://hooks.example/T")
                  2 200 300 (world_2025 (Raises Timeout))
                  {| time_time := 1762200299;
                     requests_post := Response 200 (lit "ok") |}
                  {| last_pool := None;
                     request_window := scenario_B_window;
                     last_failover_alert := 0;
                     last_error_alert := 0 |}
                  (repeat 500%Z 200) eq_refl eq_refl)).
Defined.

(** ** The notifier sends once *)

(** X6: [send_slack_alert] makes no second attempt.  With a webhook its
    output holds exactly one POST, to the webhook, whatever the answer;
    without one it holds none; either way exactly one item of the output is
    the alert itself. *)
Theorem send_slack_alert_posts_once (url : str) (w : world)
        (message : alert_message) (alert_type : str) (st : State) :
  count_posts (output_of (send_slack_alert url w message alert_type) st)
  = (if str_eqb url [] then 0 else 1) /\
  length (filter is_alert
            (output_of (send_slack_alert url w message alert_type) st)) = 1 /\
  (forall u m msg,
     In (post u m msg)
        (output_of (send_slack_alert url w message alert_type) st) ->
     u = url /\ m = emoji_of alert_type /\ msg = message).
Proof.
  unfold output_of. rewrite send_slack_alert_eq. cbn [snd].
  unfold slack_output, count_posts.
  destruct (str_eqb url []).
  - repeat split; try reflexivity;
      destruct H as [H|[]]; discriminate.
  - destruct (requests_post w) as [status_code text|e];
      [destruct (status_code =? 200)%Z|];
      (split; [reflexivity|split; [reflexivity|]]);
      intros u m msg H; cbn in H;
      repeat (destruct H as [H|H]; [try discriminate; injection H as <- <- <-; repeat split|]);
      try contradiction.
Qed.

(** ** The loop *)

Lemma parse_log_line_nil (n : nat) : parse_log_line n [] = None.
Proof. reflexivity. Qed.

(** One pass of the loop returns, and what it does to the window and to the
    recorded pool depends on the record of the stripped line only. *)
Lemma process_line_step (url : str) (thr : float) (ws : nat) (cd : Z) (n : nat)
      (wf we : world) (line : str) (st : State) :
  exists st' out,
    process_line url thr ws cd n wf we line st = (Return tt, st', out) /\
    request_window st'
    = window_after ws (parse_log_line n (Py.strip line)) (request_window st) /\
    last_pool st' = pool_after (parse_log_line n (Py.strip line)) (last_pool st).
Proof.
  unfold process_line.
  destruct (str_eqb (Py.strip line) []) eqn:Hline.
  { apply str_eqb_eq in Hline. rewrite Hline, parse_log_line_nil.
    exists st, []. repeat split. }
  destruct (parse_log_line n (Py.strip line)) as [data|].
  2:{ exists st, []. repeat split. }
  unfold bind at 1. rewrite track_request_eq.
  set (st1 := {| last_pool := last_pool st;
                 request_window := _;
                 last_failover_alert := last_failover_alert st;
                 last_error_alert := last_error_alert st |}).
  unfold bind, window_after, pool_after, known_pool.
  destruct (negb (str_eqb (pool data) []) &&
            negb (str_eqb (pool data) (lit "unknown"))).
  - destruct (check_failover_frame url cd wf (pool data) st1)
      as (st2 & out2 & E2 & Hp2 & Hw2 & _).
    rewrite E2.
    destruct (check_error_rate_frame url thr ws cd we st2)
      as (st3 & out3 & E3 & Hp3 & Hw3 & _).
    rewrite E3. eexists. eexists. split; [reflexivity|].
    split; [rewrite Hw3, Hw2|rewrite Hp3, Hp2]; reflexivity.
  - unfold ret.
    destruct (check_error_rate_frame url thr ws cd we st1)
      as (st3 & out3 & E3 & Hp3 & Hw3 & _).
    rewrite E3. eexists. eexists. split; [reflexivity|].
    split; [rewrite Hw3|rewrite Hp3]; reflexivity.
Qed.

Lemma tail_log_file_returns (url : str) (thr : float) (ws : nat) (cd : Z)
      (n : nat) (input : list (world * world * str)) (st : State) :
  exists st' out,
    tail_log_file url thr ws cd n input st = (Return tt, st', out).
Proof.
  revert st. induction input as [|[[wf we] line] input IH]; intros st.
  - exists st, []. reflexivity.
  - cbn [tail_log_file]. unfold bind.
    destruct (process_line_step url thr ws cd n wf we line st)
      as (st1 & out1 & E & _).
    rewrite E. destruct (IH st1) as (st2 & out2 & E2). rewrite E2.
    eexists. eexists. reflexivity.
Qed.

Lemma state_after_tail_cons (url : str) (thr : float) (ws : nat) (cd : Z)
      (n : nat) (wf we : world) (line : str)
      (input : list (world * world * str)) (st : State) :
  state_after (tail_log_file url thr ws cd n ((wf, we, line) :: input)) st
  = state_after (tail_log_file url thr ws cd n input)
      (state_after (process_line url thr ws cd n wf we line) st).
Proof.
  cbn [tail_log_file].
  destruct (process_line_step url thr ws cd n wf we line st)
    as (st1 & out1 & E & _).
  rewrite (state_after_bind _ _ st st1 tt out1 E).
  unfold state_after. rewrite E. reflexivity.
Qed.

Lemma window_after_length (ws : nat) (r : option LogRecord) (window : list Z) :
  length window <= ws -> length (window_after ws r window) <= ws.
Proof.
  intros H. destruct r as [data|]; cbn [window_after]; [|exact H].
  destruct (0 <? upstream_status data)%Z; [|exact H].
  rewrite deque_append_last_n by exact H. apply length_last_n.
Qed.

Lemma In_skipn {A} (x : A) (k : nat) (l : list A) : In x (skipn k l) -> In x l.
Proof.
  intros H. rewrite <- (firstn_skipn k l). apply in_or_app. right. exact H.
Qed.

Lemma last_cons {A} (a d : A) (l : list A) : last (a :: l) d = last l a.
Proof.
  revert a d. induction l as [|b l IH]; intros a d; [reflexivity|].
  change (last (a :: b :: l) d) with (last (b :: l) d).
  rewrite !IH. reflexivity.
Qed.

(** X7: the window keeps its bound and its sign.  Whatever lines the loop
    has read, and whatever the clock and the webhook did meanwhile, the
    window stays within [WINDOW_SIZE] and holds positive statuses only. *)
Theorem window_invariant_of_the_loop (url : str) (thr : float) (ws : nat)
        (cd : Z) (n : nat) (input : list (world * world * str)) (st : State) :
  length (request_window st) <= ws ->
  Forall (fun status => (0 < status)%Z) (request_window st) ->
  length (request_window (state_after (tail_log_file url thr ws cd n input) st))
  <= ws /\
  Forall (fun status => (0 < status)%Z)
    (request_window (state_after (tail_log_file url thr ws cd n input) st)).
Proof.
  revert st.
  induction input as [|[[wf we] line] input IH]; intros st Hlen Hpos.
  - split; assumption.
  - rewrite state_after_tail_cons.
    destruct (process_line_step url thr ws cd n wf we line st)
      as (st1 & out1 & E & Hw & _).
    unfold state_after at 2 4. rewrite E. cbn [fst snd].
    apply IH; rewrite Hw.
    + apply window_after_length. exact Hlen.
    + destruct (parse_log_line n (Py.strip line)) as [data|];
        cbn [window_after]; [|exact Hpos].
      destruct (Z.ltb_spec 0 (upstream_status data)); [|exact Hpos].
      rewrite deque_append_last_n by exact Hlen. unfold last_n.
      apply Forall_forall. intros x Hx. apply In_skipn in Hx.
      apply in_app_or in Hx. destruct Hx as [Hx|[<-|[]]]; [|assumption].
      apply (proj1 (Forall_forall _ _) Hpos). exact Hx.
Qed.

Lemma window_invariant_of_the_loop_witness :
  length
    (request_window
       (state_after
          (tail_log_file (lit "https://hooks.example/T") 2 2 300 4300
             mixed_input) initial_state)) <= 2.
Proof.
  apply (window_invariant_of_the_loop (lit "https://hooks.example/T") 2 2 300
           4300 mixed_input initial_state).
  - simpl. lia.
  - constructor.
Defined.

(** X8: the window after the loop.  It is the last [WINDOW_SIZE] items of
    what it held before followed by the positive statuses of the lines that
    parsed, in the order of the lines; failovers and alerts never disturb
    it. *)
Theorem window_after_the_loop (url : str) (thr : float) (ws : nat) (cd : Z)
        (n : nat) (input : list (world * world * str)) (st : State) :
  length (request_window st) <= ws ->
  request_window (state_after (tail_log_file url thr ws cd n input) st)
  = last_n ws (request_window st ++ admitted (statuses_of n input)).
Proof.
  revert st. induction input as [|[[wf we] line] input IH]; intros st Hlen.
  - cbn. rewrite app_nil_r. unfold last_n.
    replace (length (request_window st) - ws) with 0 by lia. reflexivity.
  - rewrite state_after_tail_cons.
    destruct (process_line_step url thr ws cd n wf we line st)
      as (st1 & out1 & E & Hw & _).
    unfold state_after at 2. rewrite E. cbn [fst snd].
    rewrite IH by (rewrite Hw; apply window_after_length; exact Hlen).
    rewrite Hw. cbn [statuses_of].
    destruct (parse_log_line n (Py.strip line)) as [data|];
      cbn [window_after]; [|reflexivity].
    cbn [admitted filter].
    destruct (0 <? upstream_status data)%Z; [|reflexivity].
    rewrite deque_append_last_n by exact Hlen.
    rewrite last_n_app, <- app_assoc. reflexivity.
Qed.

Lemma window_after_the_loop_witness :
  request_window
    (state_after
       (tail_log_file (lit "https://hooks.example/T") 2 2 300 4300 mixed_input)
       initial_state)
  = [503; 404]%Z.
Proof.
  exact (window_after_the_loop (lit "https://hooks.example/T") 2 2 300 4300
           mixed_input initial_state (Nat.le_0_l 2)).
Defined.

(** X9: the recorded pool after the loop is the pool of the last line that
    parsed with a known pool (neither empty nor [unknown]), and the pool
    recorded before when there is no such line. *)
Theorem recorded_pool_after_the_loop (url : str) (thr : float) (ws : nat)
        (cd : Z) (n : nat) (input : list (world * world * str)) (st : State) :
  last_pool (state_after (tail_log_file url thr ws cd n input) st)
  = last (map Some (known_pools n input)) (last_pool st).
Proof.
  revert st. induction input as [|[[wf we] line] input IH]; intros st.
  - reflexivity.
  - rewrite state_after_tail_cons.
    destruct (process_line_step url thr ws cd n wf we line st)
      as (st1 & out1 & E & _ & Hp).
    unfold state_after at 2. rewrite E. cbn [fst snd].
    rewrite IH, Hp. cbn [known_pools].
    destruct (parse_log_line n (Py.strip line)) as [data|];
      cbn [pool_after]; [|reflexivity].
    destruct (known_pool data); [|reflexivity].
    cbn [map]. rewrite last_cons. reflexivity.
Qed.

(** X10: reading the log in two batches is reading it in one.  The state
    after [a ++ b] is the state after [b] started from the state after [a],
    and the output is the two outputs one after the other. *)
Theorem tail_log_file_app (url : str) (thr : float) (ws : nat) (cd : Z)
        (n : nat) (a b : list (world * world * str)) (st : State) :
  tail_log_file url thr ws cd n (a ++ b) st
  = (Return tt,
     state_after (tail_log_file url thr ws cd n b)
       (state_after (tail_log_file url thr ws cd n a) st),
     output_of (tail_log_file url thr ws cd n a) st
     ++ output_of (tail_log_file url thr ws cd n b)
          (state_after (tail_log_file url thr ws cd n a) st)).
Proof.
  revert st. induction a as [|[[wf we] line] a IH]; intros st.
  - cbn [app]. unfold state_after, output_of. cbn [tail_log_file ret fst snd app].
    destruct (tail_log_file_returns url thr ws cd n b st) as (st' & out & E).
    rewrite E. reflexivity.
  - cbn [app tail_log_file]. unfold state_after, output_of, bind.
    destruct (process_line_step url thr ws cd n wf we line st)
      as (st1 & out1 & E & _).
    rewrite E, (IH st1).
    destruct (tail_log_file_returns url thr ws cd n a st1) as (st2 & out2 & E2).
    unfold state_after, output_of. rewrite E2. cbn [fst snd].
    rewrite app_assoc. reflexivity.
Qed.

(** ** White space around a line and around a status *)

Lemma lstrip_all_space (a : str) : all_space a = true -> Py.lstrip a = [].
Proof.
  induction a as [|c a IH]; cbn; [reflexivity|].
  intros H. apply andb_true_iff in H. destruct H as [Hc Ha].
  rewrite Hc. apply IH. exact Ha.
Qed.

Lemma lstrip_app_space (a s : str) :
  all_space a = true -> Py.lstrip (a ++ s) = Py.lstrip s.
Proof.
  induction a as [|c a IH]; cbn; [reflexivity|].
  intros H. apply andb_true_iff in H. destruct H as [Hc Ha].
  rewrite Hc. apply IH. exact Ha.
Qed.

Lemma all_space_rev (b : str) : all_space (rev b) = all_space b.
Proof.
  unfold all_space. induction b as [|c b IH]; [reflexivity|].
  cbn [rev forallb]. rewrite forallb_app, IH. cbn [forallb].
  rewrite andb_true_r. apply andb_comm.
Qed.

Lemma rstrip_app_space (s b : str) :
  all_space b = true -> Py.rstrip (s ++ b) = Py.rstrip s.
Proof.
  intros H. unfold Py.rstrip. rewrite rev_app_distr, lstrip_app_space;
    [reflexivity|]. rewrite all_space_rev. exact H.
Qed.

(** White space around a string does not change what [strip] returns. *)
Lemma strip_app_space (a s b : str) :
  all_space a = true -> all_space b = true ->
  Py.strip (a ++ s ++ b) = Py.strip s.
Proof.
  intros Ha Hb. unfold Py.strip. rewrite (lstrip_app_space a _ Ha).
  induction s as [|c s IH].
  - cbn [app]. rewrite (lstrip_all_space b Hb). reflexivity.
  - cbn [app Py.lstrip]. destruct (Py.isspace c); [exact IH|].
    apply (rstrip_app_space (c :: s) b Hb).
Qed.

Lemma lstrip_suffix (s : str) : exists a, s = a ++ Py.lstrip s.
Proof.
  induction s as [|c s [a IH]]; [exists []; reflexivity|].
  cbn [Py.lstrip]. destruct (Py.isspace c).
  - exists (c :: a). cbn [app]. f_equal. exact IH.
  - exists []. reflexivity.
Qed.

(** The stripped string lies inside the string. *)
Lemma strip_inside (s : str) : exists a b, s = a ++ Py.strip s ++ b.
Proof.
  destruct (lstrip_suffix s) as [a Ha].
  destruct (lstrip_suffix (rev (Py.lstrip s))) as [b Hb].
  exists a, (rev b). unfold Py.strip, Py.rstrip.
  rewrite <- rev_app_distr, <- Hb, rev_involutive. exact Ha.
Qed.

Lemma space_is_no_comma (c : ascii) :
  Py.isspace c = true -> Ascii.eqb c ","%char = false.
Proof.
  destruct c as [[] [] [] [] [] [] [] []]; intros H;
    try reflexivity; discriminate H.
Qed.

Lemma all_space_comma_free (a : str) : all_space a = true -> comma_free a = true.
Proof.
  unfold all_space, comma_free. induction a as [|c a IH]; [reflexivity|].
  cbn [forallb]. intros H. apply andb_true_iff in H. destruct H as [Hc Ha].
  rewrite (space_is_no_comma c Hc), (IH Ha). reflexivity.
Qed.

(** X11: white space around a line makes no difference to the loop: the
    newline [readline] leaves at the end of a line, or blanks in front of
    it, give the same pass of the loop as the bare line. *)
Theorem process_line_ignores_outer_space (url : str) (thr : float) (ws : nat)
        (cd : Z) (n : nat) (wf we : world) (a line b : str) (st : State) :
  all_space a = true -> all_space b = true ->
  process_line url thr ws cd n wf we (a ++ line ++ b) st
  = process_line url thr ws cd n wf we line st.
Proof.
  intros Ha Hb. unfold process_line.
  rewrite (strip_app_space a line b Ha Hb). reflexivity.
Qed.

Lemma process_line_ignores_outer_space_witness :
  process_line (lit "https://hooks.example/T") 2 200 300 4300
    (world_2025 (Raises Timeout)) (world_2025 (Raises Timeout))
    ([" "%char] ++ access_line "green" "502" ++ [ascii_of_nat 13; ascii_of_nat 10])
    blue_state
  = process_line (lit "https://hooks.example/T") 2 200 300 4300
      (world_2025 (Raises Timeout)) (world_2025 (Raises Timeout))
      (access_line "green" "502") blue_state.
Proof.
  apply (process_line_ignores_outer_space (lit "https://hooks.example/T") 2 200
           300 4300 (world_2025 (Raises Timeout)) (world_2025 (Raises Timeout))
           [" "%char] (access_line "green" "502")
           [ascii_of_nat 13; ascii_of_nat 10] blue_state);
    reflexivity.
Defined.

(** X12: the edges of the status.  A value that ends in a comma has the
    status 0, and white space around the last element of the list, or around
    a lone status, is ignored. *)
Theorem status_code_edges (n : nat) :
  (forall pre, status_code n (pre ++ [","%char]) = 0%Z) /\
  (forall pre a tok b,
     all_space a = true -> all_space b = true -> comma_free tok = true ->
     status_code n (pre ++ ","%char :: a ++ tok ++ b) = status_code n tok) /\
  (forall a tok b,
     all_space a = true -> all_space b = true -> comma_free tok = true ->
     status_code n (a ++ tok ++ b) = status_code n tok).
Proof.
  assert (Hfree : forall a tok b,
             all_space a = true -> all_space b = true -> comma_free tok = true ->
             comma_free (a ++ tok ++ b) = true).
  { intros a tok b Ha Hb Htok. unfold comma_free. rewrite !forallb_app.
    fold (comma_free a) (comma_free tok) (comma_free b).
    rewrite (all_space_comma_free a Ha), (all_space_comma_free b Hb), Htok.
    reflexivity. }
  split; [|split].
  - intros pre. rewrite (status_code_after_comma n pre [] eq_refl). reflexivity.
  - intros pre a tok b Ha Hb Htok.
    rewrite (status_code_after_comma n pre _ (Hfree a tok b Ha Hb Htok)).
    rewrite (strip_app_space a tok b Ha Hb), (status_code_single n tok Htok).
    reflexivity.
  - intros a tok b Ha Hb Htok.
    rewrite (status_code_single n _ (Hfree a tok b Ha Hb Htok)).
    rewrite (strip_app_space a tok b Ha Hb), (status_code_single n tok Htok).
    reflexivity.
Qed.

Lemma status_code_edges_witness :
  status_code 4300 (lit "502,503" ++ ","%char :: lit " " ++ lit "200" ++ lit "  ")
  = 200%Z.
Proof.
  exact (proj1 (proj2 (status_code_edges 4300)) (lit "502,503") (lit " ")
           (lit "200") (lit "  ") eq_refl eq_refl eq_refl).
Defined.

(** ** What the parser lets through *)

Lemma parse_log_line_Some_fields (n : nat) (line : str) (data : LogRecord) :
  parse_log_line n line = Some data ->
  exists pre p r u a post,
    line = pre ++ fields_text p r u a ++ post /\
    quote_free p = true /\ quote_free r = true /\
    quote_free u = true /\ quote_free a = true /\
    data = {| pool := unknown_if_dash p;
              release := unknown_if_dash r;
              upstream_status := status_code n u;
              upstream_addr := a |}.
Proof.
  unfold parse_log_line.
  destruct (Re.search LOG_PATTERN line) as [g|] eqn:E; [|discriminate].
  intros H. injection H as <-.
  apply search_Some in E. destruct E as (pre & suf & -> & _ & Hm).
  apply match_here_LOG_PATTERN in Hm.
  destruct Hm as (p & r & u & a & post & -> & Hp & Hr & Hu & Ha & ->).
  exists pre, p, r, u, a, post. repeat split; assumption.
Qed.

Lemma fields_text_length (p r u a : str) :
  length (fields_text p r u a)
  = 54 + length p + length r + length u + length a.
Proof.
  unfold fields_text. rewrite !length_app. cbn [length lit list_ascii_of_string].
  lia.
Qed.

Lemma process_line_unparsed (url : str) (thr : float) (ws : nat) (cd : Z)
      (n : nat) (wf we : world) (line : str) (st : State) :
  parse_log_line n (Py.strip line) = None ->
  process_line url thr ws cd n wf we line st = (Return tt, st, []).
Proof.
  intros H. unfold process_line. rewrite H.
  destruct (str_eqb (Py.strip line) []); reflexivity.
Qed.

(** X13: only a line that carries the text of the four fields can make the
    loop do anything.  If a pass of the loop changes the state or prints or
    sends something, the line contains
    [pool="p" release="r" upstream_status="u" upstream_addr="a"]; so a line
    of fewer than 54 characters is always skipped without a trace. *)
Theorem only_field_lines_have_effects (url : str) (thr : float) (ws : nat)
        (cd : Z) (n : nat) (wf we : world) (line : str) (st : State) :
  (process_line url thr ws cd n wf we line st <> (Return tt, st, []) ->
   exists pre p r u a post,
     quote_free p = true /\ quote_free r = true /\
     quote_free u = true /\ quote_free a = true /\
     line = pre ++ fields_text p r u a ++ post) /\
  (length line < 54 ->
   process_line url thr ws cd n wf we line st = (Return tt, st, [])).
Proof.
  assert (Hfields : forall data,
             parse_log_line n (Py.strip line) = Some data ->
             exists pre p r u a post,
               quote_free p = true /\ quote_free r = true /\
               quote_free u = true /\ quote_free a = true /\
               line = pre ++ fields_text p r u a ++ post).
  { intros data H. apply parse_log_line_Some_fields in H.
    destruct H as (pre & p & r & u & a & post & E & Hp & Hr & Hu & Ha & _).
    destruct (strip_inside line) as (x & y & Hxy).
    exists (x ++ pre), p, r, u, a, (post ++ y).
    repeat split; try assumption.
    rewrite Hxy at 1. rewrite E, <- !app_assoc. reflexivity. }
  split.
  - intros Heff.
    destruct (parse_log_line n (Py.strip line)) as [data|] eqn:E.
    + exact (Hfields data eq_refl).
    + exfalso. apply Heff. apply process_line_unparsed. exact E.
  - intros Hshort. apply process_line_unparsed.
    destruct (parse_log_line n (Py.strip line)) as [data|] eqn:E;
      [|reflexivity].
    destruct (Hfields data eq_refl)
      as (pre & p & r & u & a & post & _ & _ & _ & _ & Hline).
    rewrite Hline, !length_app, fields_text_length in Hshort. lia.
Qed.

Lemma only_field_lines_have_effects_witness :
  process_line (lit "https://hooks.example/T") 2 200 300 4300
    (world_2025 (Raises Timeout)) (world_2025 (Raises Timeout))
    (lit "pool=blue release=v1 upstream_status=503") blue_state
  = (Return tt, blue_state, []).
Proof.
  apply (proj2 (only_field_lines_have_effects (lit "https://hooks.example/T")
                  2 200 300 4300 (world_2025 (Raises Timeout))
                  (world_2025 (Raises Timeout))
                  (lit "pool=blue release=v1 upstream_status=503") blue_state)).
  simpl. lia.
Defined.

(** X14: what a record can hold.  No field of a parsed record contains a
    double quote, and its [pool] and [release] are never the sentinel [-]:
    where the line has [-], the record has [unknown]. *)
Theorem parsed_fields_are_clean (n : nat) (line : str) (data : LogRecord) :
  parse_log_line n line = Some data ->
  quote_free (pool data) = true /\
  quote_free (release data) = true /\
  quote_free (upstream_addr data) = true /\
  pool data <> lit "-" /\
  release data <> lit "-".
Proof.
  intros H. apply parse_log_line_Some_fields in H.
  destruct H as (pre & p & r & u & a & post & _ & Hp & Hr & _ & Ha & ->).
  cbn [pool release upstream_addr].
  assert (Hq : forall x, quote_free x = true ->
                         quote_free (unknown_if_dash x) = true).
  { intros x Hx. unfold unknown_if_dash.
    destruct (str_eqb x (lit "-")); [reflexivity|exact Hx]. }
  assert (Hd : forall x, unknown_if_dash x <> lit "-").
  { intros x. unfold unknown_if_dash.
    destruct (str_eqb x (lit "-")) eqn:E; cbn [negb].
    - discriminate.
    - apply str_eqb_neq. exact E. }
  repeat split; auto.
Qed.

Lemma parsed_fields_are_clean_witness :
  pool {| pool := lit "unknown"; release := lit "unknown";
          upstream_status := 0; upstream_addr := lit "-" |} <> lit "-".
Proof.
  apply (parsed_fields_are_clean 4300 dash_line
           {| pool := lit "unknown"; release := lit "unknown";
              upstream_status := 0; upstream_addr := lit "-" |}).
  reflexivity.
Defined.

(** ** The count of errors *)

(** X15: the count of errors lies between 0 and the length of the window; it
    is 0 exactly when no status of the window is 500 or more, and the length
    exactly when all of them are. *)
Theorem error_count_bounds (window : list Z) :
  (0 <= error_count window <= Z.of_nat (length window))%Z /\
  (error_count window = 0%Z <->
   Forall (fun status => (status < 500)%Z) window) /\
  (error_count window = Z.of_nat (length window) <->
   Forall (fun status => (500 <= status)%Z) window).
Proof.
  rewrite error_count_errors_in. unfold errors_in.
  induction window as [|x w (Hb & H0 & Hall)]; cbn [filter length].
  - repeat split; try constructor; lia.
  - pose proof (filter_length_le (fun status => (500 <=? status)%Z) w) as Hle.
    destruct (Z.leb_spec 500 x) as [Hx|Hx]; cbn [length].
    + split; [lia|]. split; split.
      * lia.
      * intros H. inversion H. lia.
      * intros H. constructor; [exact Hx|]. apply Hall. lia.
      * intros H. inversion H as [|? ? _ Hw]. apply Hall in Hw. lia.
    + split; [lia|]. split; split.
      * intros H. constructor; [exact Hx|]. apply H0. exact H.
      * intros H. inversion H as [|? ? _ Hw]. apply H0. exact Hw.
      * lia.
      * intros H. inversion H. lia.
Qed.

(** ** Lines the detector does not see *)

(** X16: a line whose [pool] field is [-], empty, or the word [unknown]
    never reaches the failover detector: the recorded pool and the failover
    timestamp stay as they are and nothing about a failover is printed or
    sent, while the status of the line still enters the window. *)
Theorem unknown_pool_bypasses_detector (url : str) (thr : float) (ws : nat)
        (cd : Z) (n : nat) (wf we : world) (line pre p r u a post : str)
        (st : State) :
  Py.strip line = pre ++ fields_text p r u a ++ post ->
  no_earlier_match pre (fields_text p r u a ++ post) = true ->
  quote_free p = true -> quote_free r = true ->
  quote_free u = true -> quote_free a = true ->
  p = lit "-" \/ p = [] \/ p = lit "unknown" ->
  process_line url thr ws cd n wf we line st
  = (Return tt,
     state_after (check_error_rate url thr ws cd we)
       (state_after (track_request ws (status_code n u)) st),
     output_of (check_error_rate url thr ws cd we)
       (state_after (track_request ws (status_code n u)) st)) /\
  last_pool (state_after (process_line url thr ws cd n wf we line) st)
  = last_pool st /\
  last_failover_alert (state_after (process_line url thr ws cd n wf we line) st)
  = last_failover_alert st.
Proof.
  intros Hline Hn Hp Hr Hu Ha Hsentinel.
  assert (Hrun : process_line url thr ws cd n wf we line st
                 = (Return tt,
                    state_after (check_error_rate url thr ws cd we)
                      (state_after (track_request ws (status_code n u)) st),
                    output_of (check_error_rate url thr ws cd we)
                      (state_after (track_request ws (status_code n u)) st))).
  { unfold process_line. rewrite Hline.
    rewrite (parse_log_line_fields n pre p r u a post Hn Hp Hr Hu Ha).
    destruct (str_eqb (pre ++ fields_text p r u a ++ post) []) eqn:E.
    { apply str_eqb_eq in E. apply (f_equal (@length ascii)) in E.
      rewrite !length_app, fields_text_length in E. cbn in E. lia. }
    cbn [pool upstream_status].
    assert (Hunknown : negb (str_eqb (unknown_if_dash p) []) &&
                       negb (str_eqb (unknown_if_dash p) (lit "unknown")) = false).
    { destruct Hsentinel as [->|[->| ->]]; reflexivity. }
    rewrite Hunknown. unfold bind, state_after, output_of, ret.
    rewrite track_request_eq. cbn [fst snd].
    destruct (check_error_rate_frame url thr ws cd we
                {| last_pool := last_pool st;
                   request_window :=
                     if (0 <? status_code n u)%Z
                     then Py.deque_append ws (request_window st) (status_code n u)
                     else request_window st;
                   last_failover_alert := last_failover_alert st;
                   last_error_alert := last_error_alert st |})
      as (st3 & out3 & E3 & _).
    rewrite E3. reflexivity. }
  split; [exact Hrun|].
  assert (Hst : state_after (process_line url thr ws cd n wf we line) st
                = state_after (check_error_rate url thr ws cd we)
                    (state_after (track_request ws (status_code n u)) st)).
  { unfold state_after at 1. rewrite Hrun. reflexivity. }
  rewrite Hst.
  destruct (check_error_rate_frame url thr ws cd we
              (state_after (track_request ws (status_code n u)) st))
    as (st3 & out3 & E3 & Hp3 & _ & Hf3).
  unfold state_after at 1 3. rewrite E3. cbn [fst snd].
  rewrite Hp3, Hf3. unfold state_after. rewrite track_request_eq.
  split; reflexivity.
Qed.

Lemma unknown_pool_bypasses_detector_witness :
  last_pool
    (state_after
       (process_line (lit "https://hooks.example/T") 2 200 300 4300
          (world_2025 (Response 200 (lit "ok")))
          (world_2025 (Response 200 (lit "ok")))
          (access_line "-" "502")) blue_state)
  = Some (lit "blue").
Proof.
  apply (proj1 (proj2 (unknown_pool_bypasses_detector
           (lit "https://hooks.example/T") 2 200 300 4300
           (world_2025 (Response 200 (lit "ok")))
           (world_2025 (Response 200 (lit "ok")))
           (access_line "-" "502") (lit "10.0.0.7 GET /version ")
           (lit "-") (lit "v1.0.3") (lit "502") (lit "172.18.0.3:3000")
           (lit " request_time=0.004") blue_state
           eq_refl eq_refl eq_refl eq_refl eq_refl eq_refl
           (or_introl eq_refl)))).
Defined.

(** X17: steady traffic is silent.  When every pool observed is the pool
    already recorded, a run of [check_failover] prints nothing, sends
    nothing and leaves the state as it is, whatever the clock reads. *)
Theorem same_pool_is_silent (url : str) (cd : Z) (obs : list (world * str))
        (p : str) (st : State) :
  last_pool st = Some p ->
  Forall (fun o => snd o = p) obs ->
  observe_pools url cd obs st = (Return tt, st, []).
Proof.
  intros Hlast Hall. induction Hall as [|[w q] obs Hq _ IH]; [reflexivity|].
  cbn [snd] in Hq. subst q. cbn [observe_pools]. unfold bind.
  rewrite check_failover_eq, Hlast, (proj2 (str_eqb_eq p p) eq_refl).
  rewrite IH. reflexivity.
Qed.

Lemma same_pool_is_silent_witness :
  observe_pools (lit "https://hooks.example/T") 300
    [(world_2025 (Raises Timeout), lit "blue"); (early_world, lit "blue")]
    blue_state
  = (Return tt, blue_state, []).
Proof.
  apply (same_pool_is_silent (lit "https://hooks.example/T") 300 _
           (lit "blue") blue_state).
  - reflexivity.
  - repeat constructor.
Defined.

(** ** The loop with its source *)



(** A log whose second line is not text: the first line is handled, the
    decoding error is printed and raised again, [tail] is stopped, and the
    third line is never read. *)
Example undecodable_line_stops_the_loop :
  tail_log_file_from_source (lit "https://hooks.example/T") 2 200 300 4300 1 None
    [read_line (world_2025 (Response 200 (lit "ok")))
       (world_2025 (Response 200 (lit "ok"))) (access_line "blue" "200");
     read_raises UnicodeDecodeError;
     read_line (world_2025 (Response 200 (lit "ok")))
       (world_2025 (Response 200 (lit "ok"))) (access_line "green" "200")]
    initial_state
  = (reraised (source_failed UnicodeDecodeError),
     {| last_pool := Some (lit "blue");
        request_window := [200%Z];
        last_failover_alert := 0;
        last_error_alert := 0 |},
     [print_watching; print_config 2 200 300; print_waiting; print_log_found;
      pass_output (print_initial_pool (lit "blue"));
      print_tail_error (source_failed UnicodeDecodeError);
      terminate_tail]).
Proof. vm_compute. reflexivity. Qed.
